(** * ChatSphere: the real-time delivery and presence core

    A shallow embedding of the socket layer of the chat server
    ([socket/index.ts], [socket/handlers/message.handler.ts],
    [socket/handlers/presence.handler.ts]) and of the history endpoint
    ([getChatHistory] of the message controller), together with the part of
    the Mongoose models they touch.

    Every [socket.on(...)] callback is one definition in a small
    state-and-exception monad over a [World]: the MongoDB collections, the
    [io.userSockets] map, the connected sockets, and the events emitted so
    far.  A callback runs atomically here: the interleaving of two callbacks
    at their [await] points is outside this model. *)

From stdpp Require Import gmap strings list fin_maps sorting.

Open Scope string_scope.
Open Scope list_scope.

(** ** Data model *)

Abbreviation UserId := string.
Abbreviation SocketId := string.
Abbreviation MessageId := nat.
Abbreviation Date := nat.

(** [type: 'text' | 'image' | 'audio'] of [IMessage]. *)
Inductive MessageType := Text | Image | Audio.

#[global] Instance MessageType_eq_dec : EqDecision MessageType.
Proof. solve_decision. Defined.

(** An element of [IMessage.reactions]. *)
Record Reaction := {
  r_user : UserId;
  r_emoji : string;
  r_createdAt : Date;
}.

(** [IMessage] of [models/Message.ts]; [_id], [createdAt] and [updatedAt]
    come from Mongoose ([timestamps: true]). *)
Record IMessage := {
  _id : MessageId;
  sender : UserId;
  receiver : UserId;
  content : option string;
  image : option string;
  audio : option string;
  type : MessageType;
  isRead : bool;
  replyTo : option MessageId;
  isEdited : bool;
  editedAt : option Date;
  reactions : list Reaction;
  createdAt : Date;
  updatedAt : Date;
}.

(** [IContact] of [models/Contact.ts]: a directed edge [user -> contact]. *)
Record IContact := {
  c_user : UserId;
  c_contact : UserId;
}.

(** Modelled from the spec: the User model ([models/User]) is not among the
    sources; the handlers only write [isOnline] and [lastSeen] and only
    populate [name], [avatar] and [isOnline], the Durable Store fields the
    spec names for a user. *)
Record IUser := {
  name : string;
  avatar : string;
  isOnline : bool;
  lastSeen : option Date;
}.

(** The three collections.  [nextId] stands for the ObjectId generator:
    every created message gets an identifier never handed out before. *)
Record Db := {
  users : gmap string IUser;
  contacts : list IContact;
  messages : list IMessage;
  nextId : MessageId;
}.

(** A connected socket: [socket.id] and [socket.data.userId], the latter set
    by the authentication middleware of [initializeSocket]. *)
Record Socket := {
  socket_id : SocketId;
  data_userId : UserId;
}.

(** What [.populate('sender', 'name avatar isOnline')] puts in place of a
    user reference; [isOnline] is not selected by the HTTP controller. *)
Record PopulatedUser := {
  p_id : UserId;
  p_name : string;
  p_avatar : string;
  p_isOnline : option bool;
}.

(** [.populate({ path: 'replyTo', select: 'content type sender image',
    populate: { path: 'sender', select: 'name' } })]. *)
Record PopulatedReply := {
  rp_id : MessageId;
  rp_content : option string;
  rp_type : MessageType;
  rp_sender : option (UserId * string);
  rp_image : option string;
}.

(** A message with its references expanded; a reference that does not
    resolve is populated with [null], here [None]. *)
Record PopulatedMessage := {
  doc : IMessage;
  p_sender : option PopulatedUser;
  p_receiver : option PopulatedUser;
  p_replyTo : option PopulatedReply;
  p_reactions : list (Reaction * option string);
}.

(** Events the server emits to a socket. *)
Inductive ServerEvent :=
  | message_sent (populatedMessage : option PopulatedMessage)
  | message_receive (populatedMessage : option PopulatedMessage)
  | message_edited (populatedMessage : option PopulatedMessage)
  | message_reacted (populatedMessage : option PopulatedMessage)
  | message_read (reader : UserId)
  | message_error (message : string)
  | user_status (user : UserId) (online : bool).

(** The state the callbacks share.  [outbox] records, oldest first, every
    event emitted and the socket it was addressed to.  [faults] scripts the
    Durable Store: each awaited model call consumes one entry, and an entry
    [Some e] makes that call reject with an error of message [e]; an
    exhausted script means no failure. *)
Record World := {
  db : Db;
  userSockets : gmap string string;
  sockets : list Socket;
  outbox : list (SocketId * ServerEvent);
  faults : list (option string);
  now : Date;
}.

Definition set_db (d : Db) (w : World) : World :=
  {| db := d; userSockets := userSockets w; sockets := sockets w;
     outbox := outbox w; faults := faults w; now := now w |}.

Definition set_userSockets (m : gmap string string) (w : World) : World :=
  {| db := db w; userSockets := m; sockets := sockets w;
     outbox := outbox w; faults := faults w; now := now w |}.

Definition set_sockets (l : list Socket) (w : World) : World :=
  {| db := db w; userSockets := userSockets w; sockets := l;
     outbox := outbox w; faults := faults w; now := now w |}.

Definition set_outbox (o : list (SocketId * ServerEvent)) (w : World) : World :=
  {| db := db w; userSockets := userSockets w; sockets := sockets w;
     outbox := o; faults := faults w; now := now w |}.

Definition set_faults (f : list (option string)) (w : World) : World :=
  {| db := db w; userSockets := userSockets w; sockets := sockets w;
     outbox := outbox w; faults := f; now := now w |}.

(** The clock moves between callbacks. *)
Definition advance (t : Date) (w : World) : World :=
  {| db := db w; userSockets := userSockets w; sockets := sockets w;
     outbox := outbox w; faults := faults w; now := t |}.

(** ** The monad of an [async] callback *)

Inductive Outcome (A : Type) :=
  | Return (a : A)
  | Throw (error : string).
Arguments Return {A} a.
Arguments Throw {A} error.

Definition Async (A : Type) : Type := World -> Outcome A * World.

#[global] Instance Async_ret : MRet Async :=
  fun A a w => (Return a, w).

#[global] Instance Async_bind : MBind Async :=
  fun A B f m w =>
    match m w with
    | (Return a, w') => f a w'
    | (Throw e, w') => (Throw e, w')
    end.

(** [try { body } catch (error) { handler(error.message) }]. *)
Definition try_catch {A} (body : Async A) (handler : string -> Async A) : Async A :=
  fun w =>
    match body w with
    | (Return a, w') => (Return a, w')
    | (Throw e, w') => handler e w'
    end.

(** The world a callback leaves behind. *)
Definition exec {A} (m : Async A) (w : World) : World := (m w).2.

(** [await Model.op(...)]: one call to the Durable Store. *)
Definition await {A} (op : Db -> A * Db) : Async A :=
  fun w =>
    match faults w with
    | Some e :: rest => (Throw e, set_faults rest w)
    | None :: rest =>
        let '(a, d) := op (db w) in (Return a, set_db d (set_faults rest w))
    | [] => let '(a, d) := op (db w) in (Return a, set_db d w)
    end.

(** [new Date()]. *)
Definition new_Date : Async Date := fun w => (Return (now w), w).

(** [socket.emit(event, payload)]: to the client of this socket. *)
Definition socket_emit (socket : Socket) (ev : ServerEvent) : Async unit :=
  fun w => (Return tt, set_outbox (outbox w ++ [(socket_id socket, ev)]) w).

(** [io.to(socketId).emit(event, payload)]. *)
Definition io_to_emit (socketId : SocketId) (ev : ServerEvent) : Async unit :=
  fun w => (Return tt, set_outbox (outbox w ++ [(socketId, ev)]) w).

(** [socket.broadcast.emit(event, payload)]: to every connected socket
    except this one. *)
Definition broadcast_targets (socket : Socket) (l : list Socket) : list SocketId :=
  socket_id <$> filter (fun s => socket_id s ≠ socket_id socket) l.

Definition socket_broadcast_emit (socket : Socket) (ev : ServerEvent) : Async unit :=
  fun w =>
    (Return tt,
     set_outbox (outbox w ++ ((fun t => (t, ev)) <$> broadcast_targets socket (sockets w))) w).

(** [io.userSockets.get], [.set] and [.delete] of the [Map<string, string>];
    [delete] answers whether the key was present. *)
Definition userSockets_get (u : UserId) : Async (option SocketId) :=
  fun w => (Return (userSockets w !! u), w).

Definition userSockets_set (u : UserId) (h : SocketId) : Async unit :=
  fun w => (Return tt, set_userSockets (<[u := h]> (userSockets w)) w).

Definition userSockets_delete (u : UserId) : Async bool :=
  fun w =>
    (Return (bool_decide (is_Some (userSockets w !! u))),
     set_userSockets (delete u (userSockets w)) w).

(** ** The Durable Store: the Mongoose calls the callbacks make *)

(** The [trim: true] setter of [content] in the message schema, on the
    ASCII white space characters. *)
Definition is_space (c : Ascii.ascii) : bool :=
  let n := Ascii.nat_of_ascii c in ((n =? 32) || ((9 <=? n) && (n <=? 13)))%nat.

Fixpoint trim_start (s : string) : string :=
  match s with
  | String c s' => if is_space c then trim_start s' else s
  | EmptyString => EmptyString
  end.

Definition trim (s : string) : string :=
  String.rev (trim_start (String.rev (trim_start s))).

(** [Contact.findOne({ user, contact })]. *)
Definition Contact_findOne (u c : UserId) (d : Db) : option IContact :=
  find (fun k => bool_decide (c_user k = u /\ c_contact k = c)) (contacts d).

(** The object handed to [Message.create]. *)
Record MessageData := {
  d_sender : UserId;
  d_receiver : UserId;
  d_content : option string;
  d_image : option string;
  d_audio : option string;
  d_type : MessageType;
  d_isRead : bool;
  d_replyTo : option MessageId;
}.

(** [Message.create(messageData)] at time [t]: schema defaults fill
    [isEdited], [editedAt] and [reactions]; a [replyTo] is stored as given,
    the schema's [ref: 'Message'] is not checked against the collection. *)
Definition Message_create (messageData : MessageData) (t : Date) (d : Db) : IMessage * Db :=
  let message :=
    {| _id := nextId d;
       sender := d_sender messageData;
       receiver := d_receiver messageData;
       content := trim <$> d_content messageData;
       image := d_image messageData;
       audio := d_audio messageData;
       type := d_type messageData;
       isRead := d_isRead messageData;
       replyTo := d_replyTo messageData;
       isEdited := false;
       editedAt := None;
       reactions := [];
       createdAt := t;
       updatedAt := t |} in
  (message,
   {| users := users d; contacts := contacts d;
      messages := messages d ++ [message]; nextId := S (nextId d) |}).

(** [Message.findById(id)]. *)
Definition Message_findById (i : MessageId) (d : Db) : option IMessage :=
  find (fun m => bool_decide (_id m = i)) (messages d).

(** [message.save()] at time [t]: the stored document with this [_id] is
    replaced by the in-memory one, [updatedAt] refreshed. *)
Definition touch (t : Date) (m : IMessage) : IMessage :=
  {| _id := _id m; sender := sender m; receiver := receiver m;
     content := content m; image := image m; audio := audio m;
     type := type m; isRead := isRead m; replyTo := replyTo m;
     isEdited := isEdited m; editedAt := editedAt m;
     reactions := reactions m; createdAt := createdAt m; updatedAt := t |}.

Fixpoint replace_doc (m : IMessage) (l : list IMessage) : list IMessage :=
  match l with
  | [] => []
  | x :: l' => if bool_decide (_id x = _id m) then m :: l' else x :: replace_doc m l'
  end.

Definition Message_save (m : IMessage) (t : Date) (d : Db) : unit * Db :=
  (tt,
   {| users := users d; contacts := contacts d;
      messages := replace_doc (touch t m) (messages d); nextId := nextId d |}).

(** [Message.updateMany({ sender, receiver, isRead: false }, { isRead: true })]. *)
Definition set_isRead (t : Date) (m : IMessage) : IMessage :=
  {| _id := _id m; sender := sender m; receiver := receiver m;
     content := content m; image := image m; audio := audio m;
     type := type m; isRead := true; replyTo := replyTo m;
     isEdited := isEdited m; editedAt := editedAt m;
     reactions := reactions m; createdAt := createdAt m; updatedAt := t |}.

Definition unread_from (s r : UserId) (m : IMessage) : bool :=
  bool_decide (sender m = s) && bool_decide (receiver m = r) && negb (isRead m).

Definition Message_updateMany_read (s r : UserId) (t : Date) (d : Db) : unit * Db :=
  (tt,
   {| users := users d; contacts := contacts d;
      messages := (fun m => if unread_from s r m then set_isRead t m else m) <$> messages d;
      nextId := nextId d |}).

(** [User.findByIdAndUpdate(userId, { isOnline, lastSeen? })]: a user that
    does not exist is left absent, and that is not an error. *)
Definition User_findByIdAndUpdate (u : UserId) (online : bool) (seen : option Date)
    (d : Db) : unit * Db :=
  (tt,
   {| users := alter (fun x => {| name := name x; avatar := avatar x; isOnline := online;
                                  lastSeen := from_option Some (lastSeen x) seen |}) u (users d);
      contacts := contacts d; messages := messages d; nextId := nextId d |}).

(** The [.populate(...)] chain. *)
Definition populate_user (withOnline : bool) (d : Db) (u : UserId) : option PopulatedUser :=
  (fun x => {| p_id := u; p_name := name x; p_avatar := avatar x;
               p_isOnline := if withOnline then Some (isOnline x) else None |})
    <$> users d !! u.

Definition populate_reply (d : Db) (r : option MessageId) : option PopulatedReply :=
  i ← r; m ← Message_findById i d;
  Some {| rp_id := _id m; rp_content := content m; rp_type := type m;
          rp_sender := (fun x => (sender m, name x)) <$> users d !! sender m;
          rp_image := image m |}.

Definition populate (withOnline : bool) (d : Db) (m : IMessage) : PopulatedMessage :=
  {| doc := m;
     p_sender := populate_user withOnline d (sender m);
     p_receiver := populate_user withOnline d (receiver m);
     p_replyTo := populate_reply d (replyTo m);
     p_reactions := (fun r => (r, name <$> users d !! r_user r)) <$> reactions m |}.

Definition Message_findById_populate (i : MessageId) (d : Db) : option PopulatedMessage :=
  populate true d <$> Message_findById i d.

(** [.sort({ createdAt: 1 })]. *)
Fixpoint insert_by_createdAt (m : PopulatedMessage) (l : list PopulatedMessage) :=
  match l with
  | [] => [m]
  | x :: l' =>
      if (createdAt (doc m) <=? createdAt (doc x))%nat then m :: l
      else x :: insert_by_createdAt m l'
  end.

Definition sort_by_createdAt (l : list PopulatedMessage) : list PopulatedMessage :=
  foldr insert_by_createdAt [] l.

(** [Message.find({ $or: [{ sender: a, receiver: b }, { sender: b, receiver: a }] })]
    with the controller's populate chain and sort. *)
Definition between (a b : UserId) (m : IMessage) : bool :=
  (bool_decide (sender m = a) && bool_decide (receiver m = b))
  || (bool_decide (sender m = b) && bool_decide (receiver m = a)).

Definition Message_find_between (a b : UserId) (d : Db) : list PopulatedMessage :=
  sort_by_createdAt (populate false d <$> List.filter (between a b) (messages d)).

(** A call that only reads. *)
Definition query {A} (q : Db -> A) : Db -> A * Db := fun d => (q d, d).

(** ** The socket callbacks

    Payload fields are taken already cast to their schema types: identifiers
    are well-formed ObjectIds, [type] is one of the three kinds.  A payload
    Mongoose would refuse to cast or validate makes the model call reject,
    which is a [Some e] entry of the fault script. *)

(** [{ receiverId, content, type = 'text', image, audio, replyTo }]. *)
Record SendData := {
  receiverId : UserId;
  send_content : option string;
  send_type : option MessageType;
  send_image : option string;
  send_audio : option string;
  send_replyTo : option MessageId;
}.

(** [socket.on('message:send', ...)]: the [try] block, then the callback
    with its [catch]. *)
Definition message_send_try (socket : Socket) (data : SendData) : Async unit :=
  let senderId := data_userId socket in
  isContact ← await (query (Contact_findOne senderId (receiverId data)));
  match isContact with
  | None => socket_emit socket (message_error "Can only send messages to contacts")
  | Some _ =>
      let messageData :=
        {| d_sender := senderId;
           d_receiver := receiverId data;
           d_content := send_content data;
           d_image := send_image data;
           d_audio := send_audio data;
           d_type := default Text (send_type data);
           d_isRead := false;
           d_replyTo := send_replyTo data |} in
      t ← new_Date;
      message ← await (Message_create messageData t);
      populatedMessage ← await (query (Message_findById_populate (_id message)));
      socket_emit socket (message_sent populatedMessage);;
      receiverSocketId ← userSockets_get (receiverId data);
      match receiverSocketId with
      | Some sid => io_to_emit sid (message_receive populatedMessage)
      | None => mret tt
      end
  end.

Definition on_message_send (socket : Socket) (data : SendData) : Async unit :=
  try_catch (message_send_try socket data)
    (fun error => socket_emit socket (message_error error)).

(** [{ messageId, content }]. *)
Record EditData := {
  edit_messageId : MessageId;
  edit_content : option string;
}.

(** [message.content = content; message.isEdited = true;
    message.editedAt = new Date()]. *)
Definition edit_doc (c : option string) (t : Date) (m : IMessage) : IMessage :=
  {| _id := _id m; sender := sender m; receiver := receiver m;
     content := trim <$> c; image := image m; audio := audio m;
     type := type m; isRead := isRead m; replyTo := replyTo m;
     isEdited := true; editedAt := Some t;
     reactions := reactions m; createdAt := createdAt m; updatedAt := updatedAt m |}.

(** [socket.on('message:edit', ...)]. *)
Definition message_edit_try (socket : Socket) (data : EditData) : Async unit :=
  let senderId := data_userId socket in
  found ← await (query (Message_findById (edit_messageId data)));
  match found with
  | None => socket_emit socket (message_error "Message not found")
  | Some message =>
      if bool_decide (sender message ≠ senderId) then
        socket_emit socket (message_error "Not authorized")
      else if bool_decide (type message ≠ Text) then
        socket_emit socket (message_error "Can only edit text messages")
      else
        t ← new_Date;
        let message := edit_doc (edit_content data) t message in
        await (Message_save message t);;
        populatedMessage ← await (query (Message_findById_populate (_id message)));
        socket_emit socket (message_edited populatedMessage);;
        receiverSocketId ← userSockets_get (receiver message);
        match receiverSocketId with
        | Some sid => io_to_emit sid (message_edited populatedMessage)
        | None => mret tt
        end
  end.

Definition on_message_edit (socket : Socket) (data : EditData) : Async unit :=
  try_catch (message_edit_try socket data)
    (fun error => socket_emit socket (message_error error)).

(** [{ messageId, emoji }]. *)
Record ReactionData := {
  messageId : MessageId;
  emoji : string;
}.

(** [r.user.toString() === userId && r.emoji === emoji]. *)
Definition same_reaction (u : UserId) (e : string) (r : Reaction) : bool :=
  bool_decide (r_user r = u) && bool_decide (r_emoji r = e).

Definition set_reactions (l : list Reaction) (m : IMessage) : IMessage :=
  {| _id := _id m; sender := sender m; receiver := receiver m;
     content := content m; image := image m; audio := audio m;
     type := type m; isRead := isRead m; replyTo := replyTo m;
     isEdited := isEdited m; editedAt := editedAt m;
     reactions := l; createdAt := createdAt m; updatedAt := updatedAt m |}.

(** The [find] / [filter] / [push] on [message.reactions]. *)
Definition toggle (u : UserId) (e : string) (t : Date) (l : list Reaction) : list Reaction :=
  match find (same_reaction u e) l with
  | Some existingReaction => List.filter (fun r => negb (same_reaction u e r)) l
  | None => l ++ [{| r_user := u; r_emoji := e; r_createdAt := t |}]
  end.

(** [socket.on('message:reaction', ...)]. *)
Definition message_reaction_try (socket : Socket) (data : ReactionData) : Async unit :=
  let userId := data_userId socket in
  found ← await (query (Message_findById (messageId data)));
  match found with
  | None => socket_emit socket (message_error "Message not found")
  | Some message =>
      t ← new_Date;
      let message := set_reactions (toggle userId (emoji data) t (reactions message)) message in
      await (Message_save message t);;
      populatedMessage ← await (query (Message_findById_populate (_id message)));
      socket_emit socket (message_reacted populatedMessage);;
      let otherUserId :=
        if bool_decide (sender message = userId) then receiver message
        else sender message in
      otherSocketId ← userSockets_get otherUserId;
      match otherSocketId with
      | Some sid => io_to_emit sid (message_reacted populatedMessage)
      | None => mret tt
      end
  end.

Definition on_message_reaction (socket : Socket) (data : ReactionData) : Async unit :=
  try_catch (message_reaction_try socket data)
    (fun error => socket_emit socket (message_error error)).

(** [socket.on('message:read', ...)], payload [{ senderId }].  Its [catch]
    only writes to the console. *)
Definition message_read_try (socket : Socket) (senderId : UserId) : Async unit :=
  let receiverId := data_userId socket in
  t ← new_Date;
  await (Message_updateMany_read senderId receiverId t);;
  senderSocketId ← userSockets_get senderId;
  match senderSocketId with
  | Some sid => io_to_emit sid (message_read receiverId)
  | None => mret tt
  end.

Definition on_message_read (socket : Socket) (senderId : UserId) : Async unit :=
  try_catch (message_read_try socket senderId)
    (fun error => mret tt).

(** [socket.on('user:online', ...)] of the presence handler. *)
Definition on_user_online (socket : Socket) : Async unit :=
  try_catch
    (let userId := data_userId socket in
     await (User_findByIdAndUpdate userId true None);;
     socket_broadcast_emit socket (user_status userId true))
    (fun error => mret tt).

(** [socket.on('disconnect', ...)] of the presence handler; [if (userId)]
    is the truthiness of a string. *)
Definition on_disconnect (socket : Socket) : Async unit :=
  try_catch
    (let userId := data_userId socket in
     if bool_decide (userId ≠ "") then
       t ← new_Date;
       await (User_findByIdAndUpdate userId false (Some t));;
       socket_broadcast_emit socket (user_status userId false);;
       userSockets_delete userId;;
       mret tt
     else mret tt)
    (fun error => mret tt).

(** [io.on('connection', ...)] of [initializeSocket]: the only statement
    with an effect on the shared state is [io.userSockets.set]. *)
Definition on_connection (socket : Socket) : Async unit :=
  userSockets_set (data_userId socket) (socket_id socket).

(** [initializeSocket(io)]: [io.userSockets = new Map()]. *)
Definition initializeSocket (d : Db) (t : Date) : World :=
  {| db := d; userSockets := ∅; sockets := []; outbox := []; faults := []; now := t |}.

(** ** The history endpoint *)

Record Response := {
  statusCode : nat;
  success : bool;
  res_message : string;
  res_data : option (list PopulatedMessage);
}.

Definition sendSuccess (code : nat) (msg : string) (data : list PopulatedMessage) : Response :=
  {| statusCode := code; success := true; res_message := msg; res_data := Some data |}.

Definition sendError (code : nat) (msg : string) : Response :=
  {| statusCode := code; success := false; res_message := msg; res_data := None |}.

(** [getChatHistory]: [currentUserId] is [req.user._id], [userId] is
    [req.params.userId]. *)
Definition getChatHistory (currentUserId userId : UserId) : Async Response :=
  try_catch
    (isContact ← await (query (Contact_findOne currentUserId userId));
     match isContact with
     | None => mret (sendError 403 "You can only view messages from your contacts")
     | Some _ =>
         found ← await (query (Message_find_between currentUserId userId));
         t ← new_Date;
         (* Mark messages as read *)
         await (Message_updateMany_read userId currentUserId t);;
         mret (sendSuccess 200 "Chat history fetched successfully" found)
     end)
    (fun error =>
       mret (sendError 500 (if bool_decide (error = "") then "Server error" else error))).

(** ** The server as a transition system *)

Inductive ClientEvent :=
  | Connection (socket : Socket)
  | Disconnect (socket : Socket)
  | UserOnline (socket : Socket)
  | MessageSend (socket : Socket) (data : SendData)
  | MessageEdit (socket : Socket) (data : EditData)
  | MessageReaction (socket : Socket) (data : ReactionData)
  | MessageRead (socket : Socket) (senderId : UserId)
  | GetChatHistory (currentUserId userId : UserId)
  | Tick (t : Date)
  | StoreScript (f : list (option string)).

(** Socket.IO adds a socket to the connected ones before the [connection]
    callback and takes it out before its [disconnect] listeners run. *)
Definition step (w : World) (e : ClientEvent) : World :=
  match e with
  | Connection s => exec (on_connection s) (set_sockets (sockets w ++ [s]) w)
  | Disconnect s =>
      exec (on_disconnect s)
        (set_sockets (filter (fun x => socket_id x ≠ socket_id s) (sockets w)) w)
  | UserOnline s => exec (on_user_online s) w
  | MessageSend s data => exec (on_message_send s data) w
  | MessageEdit s data => exec (on_message_edit s data) w
  | MessageReaction s data => exec (on_message_reaction s data) w
  | MessageRead s senderId => exec (on_message_read s senderId) w
  | GetChatHistory a b => exec (getChatHistory a b) w
  | Tick t => advance t w
  | StoreScript f => set_faults f w
  end.

Definition run (w : World) (l : list ClientEvent) : World := foldl step w l.

(** ** Views used to state the properties *)

(** The reactions of a message viewed as (reactor, emoji) pairs. *)
Definition reaction_pairs (l : list Reaction) : list (UserId * string) :=
  (fun r => (r_user r, r_emoji r)) <$> l.

(** The handles the registry holds for a user, read off the map's entries. *)
Definition handles_of (U : UserId) (m : gmap string string) : list SocketId :=
  snd <$> filter (fun p => p.1 = U) (map_to_list m).

(** ** Sample worlds *)

Definition refused_socket : Socket := {| socket_id := "s1"; data_userId := "u1" |}.

Definition refused_data : SendData :=
  {| receiverId := "u2"; send_content := Some "hello"; send_type := None;
     send_image := None; send_audio := None; send_replyTo := None |}.

Definition empty_db : Db := {| users := ∅; contacts := []; messages := []; nextId := 0 |}.

(** The running example: two users who are contacts of each other, and their
    sockets. *)
Definition alice : IUser :=
  {| name := "Alice"; avatar := "a.png"; isOnline := false; lastSeen := None |}.

Definition bob : IUser :=
  {| name := "Bob"; avatar := "b.png"; isOnline := false; lastSeen := None |}.

Definition chat_db : Db :=
  {| users := <["A" := alice]> (<["B" := bob]> ∅);
     contacts := [ {| c_user := "A"; c_contact := "B" |};
                   {| c_user := "B"; c_contact := "A" |} ];
     messages := [];
     nextId := 0 |}.

Definition sA : Socket := {| socket_id := "sA"; data_userId := "A" |}.
Definition sB : Socket := {| socket_id := "sB"; data_userId := "B" |}.

(** Only A is connected. *)
Definition a_online : World := run (initializeSocket chat_db 10) [Connection sA].

Definition reply_to_nothing : SendData :=
  {| receiverId := "B"; send_content := Some "hi"; send_type := None;
     send_image := None; send_audio := None; send_replyTo := Some 7 |}.

Definition photo : IMessage :=
  {| _id := 0; sender := "A"; receiver := "B"; content := None;
     image := Some "https://res.cloudinary.com/p.png"; audio := None; type := Image;
     isRead := false; replyTo := None; isEdited := false; editedAt := None;
     reactions := []; createdAt := 5; updatedAt := 5 |}.

Definition photo_db : Db :=
  {| users := users chat_db; contacts := contacts chat_db;
     messages := [photo]; nextId := 1 |}.

Definition photo_world : World := run (initializeSocket photo_db 10) [Connection sA].

Definition caption : EditData := {| edit_messageId := 0; edit_content := Some "sunset" |}.

Definition store_down : World := step a_online (StoreScript [Some "connection lost"]).

Definition liked_photo : IMessage :=
  set_reactions [ {| r_user := "B"; r_emoji := "thumbsup"; r_createdAt := 6 |} ] photo.

Definition liked_world : World :=
  initializeSocket
    {| users := users chat_db; contacts := contacts chat_db;
       messages := [liked_photo]; nextId := 1 |} 10.

Definition heart : ReactionData := {| messageId := 0; emoji := "heart" |}.

Definition hi : SendData :=
  {| receiverId := "B"; send_content := Some "hi"; send_type := Some Text;
     send_image := None; send_audio := None; send_replyTo := None |}.

(** A second device of A. *)
Definition sA2 : Socket := {| socket_id := "sA2"; data_userId := "A" |}.

(** A reconnected: the registry holds the newer handle [sA2], and the
    disconnect of the older socket [sA] is still to come. *)
Definition reconnected : World :=
  run (initializeSocket chat_db 10) [Connection sA; Connection sA2].

(** B is connected and has announced itself; A is not connected. *)
Definition b_online : World := run (initializeSocket chat_db 10) [Connection sB; UserOnline sB].

(** ** The message controller and [removeContact]

    The HTTP endpoints behind [authMiddleware]: [currentUserId] is
    [req.user._id].  Unlike the socket callbacks they emit nothing. *)

Module Http.

(** The body [sendSuccess] and [sendError] of [utils/response] write, for a
    payload of any shape; [data] is [None] for [null] and in an error. *)
Record Response (D : Type) := {
  status : nat;
  success : bool;
  message : string;
  data : option D;
}.
Arguments status {D} _.
Arguments success {D} _.
Arguments message {D} _.
Arguments data {D} _.

Definition sendSuccess {D} (statusCode : nat) (msg : string) (d : option D) : Response D :=
  {| status := statusCode; success := true; message := msg; data := d |}.

Definition sendError {D} (statusCode : nat) (msg : string) : Response D :=
  {| status := statusCode; success := false; message := msg; data := None |}.

(** [error.message || 'Server error']. *)
Definition server_error {D} (error : string) : Response D :=
  sendError 500 (if bool_decide (error = "") then "Server error" else error).

End Http.

(** [Message.countDocuments({ receiver, isRead: false })]. *)
Definition Message_countDocuments_unread (r : UserId) (d : Db) : nat :=
  length (List.filter (fun m => bool_decide (receiver m = r) && negb (isRead m)) (messages d)).

(** [getUnreadCount]. *)
Definition getUnreadCount (currentUserId : UserId) : Async (Http.Response nat) :=
  try_catch
    (unreadCount ← await (query (Message_countDocuments_unread currentUserId));
     mret (Http.sendSuccess 200 "Unread count fetched" (Some unreadCount)))
    (fun error => mret (Http.server_error error)).

(** [message.deleteOne()]: the stored document with this [_id] goes. *)
Fixpoint remove_doc (i : MessageId) (l : list IMessage) : list IMessage :=
  match l with
  | [] => []
  | x :: l' => if bool_decide (_id x = i) then l' else x :: remove_doc i l'
  end.

Definition Message_deleteOne (m : IMessage) (d : Db) : unit * Db :=
  (tt,
   {| users := users d; contacts := contacts d;
      messages := remove_doc (_id m) (messages d); nextId := nextId d |}).

(** [deleteMessage]. *)
Definition deleteMessage (currentUserId : UserId) (messageId : MessageId)
    : Async (Http.Response unit) :=
  try_catch
    (found ← await (query (Message_findById messageId));
     match found with
     | None => mret (Http.sendError 404 "Message not found")
     | Some message =>
         (* Only sender can delete *)
         if bool_decide (sender message ≠ currentUserId) then
           mret (Http.sendError 403 "Not authorized to delete this message")
         else
           await (Message_deleteOne message);;
           mret (Http.sendSuccess 200 "Message deleted successfully" None)
     end)
    (fun error => mret (Http.server_error error)).

(** The populate chain of the controller: without [isOnline]. *)
Definition Message_findById_populate_plain (i : MessageId) (d : Db) : option PopulatedMessage :=
  populate false d <$> Message_findById i d.

(** [!content || !content.trim()]. *)
Definition blank (c : option string) : bool :=
  match c with
  | None => true
  | Some s => bool_decide (s = "") || bool_decide (trim s = "")
  end.

(** [editMessage]: [content] is [req.body.content]. *)
Definition editMessage (currentUserId : UserId) (messageId : MessageId)
    (c : option string) : Async (Http.Response (option PopulatedMessage)) :=
  try_catch
    (if blank c then mret (Http.sendError 400 "Message content cannot be empty")
     else
       found ← await (query (Message_findById messageId));
       match found with
       | None => mret (Http.sendError 404 "Message not found")
       | Some message =>
           (* Only sender can edit *)
           if bool_decide (sender message ≠ currentUserId) then
             mret (Http.sendError 403 "Not authorized to edit this message")
           (* Can only edit text messages *)
           else if bool_decide (type message ≠ Text) then
             mret (Http.sendError 400 "Only text messages can be edited")
           else
             t ← new_Date;
             let message := edit_doc (trim <$> c) t message in
             await (Message_save message t);;
             populatedMessage ← await (query (Message_findById_populate_plain (_id message)));
             mret (Http.sendSuccess 200 "Message edited successfully" (Some populatedMessage))
       end)
    (fun error => mret (Http.server_error error)).

(** [!emoji]. *)
Definition no_emoji (e : option string) : bool :=
  match e with
  | None => true
  | Some s => bool_decide (s = "")
  end.

(** [toggleReaction]: [e] is [req.body.emoji]. *)
Definition toggleReaction (currentUserId : UserId) (messageId : MessageId)
    (e : option string) : Async (Http.Response (option PopulatedMessage)) :=
  try_catch
    (if no_emoji e then mret (Http.sendError 400 "Emoji is required")
     else
       found ← await (query (Message_findById messageId));
       match found with
       | None => mret (Http.sendError 404 "Message not found")
       | Some message =>
           t ← new_Date;
           let message :=
             set_reactions (toggle currentUserId (default "" e) t (reactions message)) message in
           await (Message_save message t);;
           populatedMessage ← await (query (Message_findById_populate_plain (_id message)));
           mret (Http.sendSuccess 200 "Reaction toggled successfully" (Some populatedMessage))
       end)
    (fun error => mret (Http.server_error error)).

(** [Contact.deleteMany({ $or: [{ user: a, contact: b }, { user: b, contact: a }] })]. *)
Definition Contact_deleteMany_between (a b : UserId) (d : Db) : unit * Db :=
  (tt,
   {| users := users d;
      contacts :=
        List.filter
          (fun k => negb (bool_decide (c_user k = a /\ c_contact k = b)
                          || bool_decide (c_user k = b /\ c_contact k = a)))
          (contacts d);
      messages := messages d; nextId := nextId d |}).

(** [removeContact] of the contact controller. *)
Definition removeContact (currentUserId contactId : UserId) : Async (Http.Response unit) :=
  try_catch
    ((* Remove bidirectional relationship *)
     await (Contact_deleteMany_between currentUserId contactId);;
     mret (Http.sendSuccess 200 "Contact removed successfully" None))
    (fun error => mret (Http.server_error error)).

(** [User.findById(id)], and [user.save()] of the document found. *)
Definition User_findById (u : UserId) (d : Db) : option IUser := users d !! u.

Definition User_save (u : UserId) (x : IUser) (d : Db) : unit * Db :=
  (tt,
   {| users := <[u := x]> (users d); contacts := contacts d;
      messages := messages d; nextId := nextId d |}).

(** [logout] of the auth controller. *)
Definition logout (currentUserId : UserId) : Async (Http.Response unit) :=
  try_catch
    (found ← await (query (User_findById currentUserId));
     match found with
     | Some user =>
         t ← new_Date;
         let user :=
           {| name := name user; avatar := avatar user; isOnline := false;
              lastSeen := Some t |} in
         await (User_save currentUserId user)
     | None => mret tt
     end;;
     mret (Http.sendSuccess 200 "Logout successful" None))
    (fun error => mret (Http.server_error error)).

(** ** Everything the server answers *)

Inductive Request :=
  | SocketEvent (e : ClientEvent)
  | GetUnreadCount (currentUserId : UserId)
  | DeleteMessage (currentUserId : UserId) (messageId : MessageId)
  | EditMessage (currentUserId : UserId) (messageId : MessageId) (c : option string)
  | ToggleReaction (currentUserId : UserId) (messageId : MessageId) (e : option string)
  | RemoveContact (currentUserId contactId : UserId)
  | Logout (currentUserId : UserId).

Definition serve (w : World) (r : Request) : World :=
  match r with
  | SocketEvent e => step w e
  | GetUnreadCount u => exec (getUnreadCount u) w
  | DeleteMessage u i => exec (deleteMessage u i) w
  | EditMessage u i c => exec (editMessage u i c) w
  | ToggleReaction u i e => exec (toggleReaction u i e) w
  | RemoveContact u c => exec (removeContact u c) w
  | Logout u => exec (logout u) w
  end.

Definition serve_all (w : World) (l : list Request) : World := foldl serve w l.

(** ** Predicates the properties are stated with *)

(** A request's effect on the store is all-or-nothing. *)
Definition all_or_nothing {A} (h : Async A) : Prop :=
  forall w, db (exec h w) = db w \/ db (exec h w) = db (exec h (set_faults [] w)).

(** Identifiers are handed out once: every stored message has an identifier
    below the generator's next one, and no two share one. *)
Definition store_wf (d : Db) : Prop :=
  Forall (fun m => _id m < nextId d) (messages d) /\ NoDup (_id <$> messages d).

(** What may happen to a stored message: who sent what to whom, when, and in
    reply to what stays; a read or edited message stays so; only a text
    message may get another content. *)
Definition evolves (m m' : IMessage) : Prop :=
  _id m' = _id m /\ sender m' = sender m /\ receiver m' = receiver m
  /\ type m' = type m /\ replyTo m' = replyTo m /\ createdAt m' = createdAt m
  /\ image m' = image m /\ audio m' = audio m
  /\ (isRead m = true -> isRead m' = true)
  /\ (isEdited m = true -> isEdited m' = true)
  /\ (type m ≠ Text -> content m' = content m).

(** Every message of [d] is still in [d'], evolved. *)
Definition persists (d d' : Db) : Prop :=
  forall i m, Message_findById i d = Some m ->
    exists m', Message_findById i d' = Some m' /\ evolves m m'.

(** The writes a socket event or a history request can make to the store at
    time [t]: none, or exactly one of these. *)
Inductive socket_write (t : Date) (d : Db) : Db -> Prop :=
  | write_none : socket_write t d d
  | write_create (messageData : MessageData) :
      socket_write t d (Message_create messageData t d).2
  | write_edit (m : IMessage) (c : option string) :
      Message_findById (_id m) d = Some m ->
      type m = Text ->
      socket_write t d (Message_save (edit_doc c t m) t d).2
  | write_reaction (m : IMessage) (u : UserId) (e : string) :
      Message_findById (_id m) d = Some m ->
      socket_write t d (Message_save (set_reactions (toggle u e t (reactions m)) m) t d).2
  | write_read (s r : UserId) :
      socket_write t d (Message_updateMany_read s r t d).2
  | write_presence (u : UserId) (online : bool) (seen : option Date) :
      socket_write t d (User_findByIdAndUpdate u online seen d).2.

(** The controller adds two more. *)
Inductive request_write (t : Date) (d : Db) : Db -> Prop :=
  | write_socket (d' : Db) : socket_write t d d' -> request_write t d d'
  | write_delete (m : IMessage) :
      Message_findById (_id m) d = Some m ->
      request_write t d (Message_deleteOne m d).2
  | write_removeContact (a b : UserId) :
      request_write t d (Contact_deleteMany_between a b d).2.

(** The shape every stored message keeps: no two reactions with the same
    reactor and emoji, and an edited message is a text message with its
    edit time. *)
Definition message_ok (m : IMessage) : Prop :=
  NoDup (reaction_pairs (reactions m))
  /\ (isEdited m = true -> type m = Text /\ is_Some (editedAt m)).

(** [.sort({ createdAt: 1 })] gives the documents oldest first. *)
Definition oldest_first (l : list PopulatedMessage) : Prop :=
  Sorted (fun x y => createdAt (doc x) <= createdAt (doc y)) l.

(** A text message from A to B, and B's reply to A's photo. *)
Definition note : IMessage :=
  {| _id := 0; sender := "A"; receiver := "B"; content := Some "see you at 8";
     image := None; audio := None; type := Text; isRead := false; replyTo := None;
     isEdited := false; editedAt := None; reactions := []; createdAt := 5;
     updatedAt := 5 |}.

Definition note_world : World :=
  run (initializeSocket
         {| users := users chat_db; contacts := contacts chat_db;
            messages := [note]; nextId := 1 |} 10)
      [Connection sA; Connection sB].

Definition nice_one : IMessage :=
  {| _id := 1; sender := "B"; receiver := "A"; content := Some "nice one";
     image := None; audio := None; type := Text; isRead := false; replyTo := Some 0;
     isEdited := false; editedAt := None; reactions := []; createdAt := 7;
     updatedAt := 7 |}.

Definition thread_world : World :=
  initializeSocket
    {| users := users chat_db; contacts := contacts chat_db;
       messages := [photo; nice_one]; nextId := 2 |} 10.

(** The store takes the new message and fails the read-back. *)
Definition flaky : World :=
  step a_online (StoreScript [None; None; Some "read failed"]).

Definition see_you_at_9 : EditData :=
  {| edit_messageId := 0; edit_content := Some " see you at 9 " |}.

Definition busy_day : list Request :=
  [SocketEvent (MessageSend sA hi); SocketEvent (MessageSend sB
     {| receiverId := "A"; send_content := Some "hello"; send_type := None;
        send_image := None; send_audio := None; send_replyTo := Some 0 |});
   DeleteMessage "A" 0; EditMessage "B" 1 (Some "hello!"); Logout "A"].

Definition chatter : list ClientEvent :=
  [MessageReaction sB heart; MessageRead sB "A"; MessageEdit sA see_you_at_9;
   GetChatHistory "B" "A"; Disconnect sA].

Definition hello_a : SendData :=
  {| receiverId := "A"; send_content := Some "hello"; send_type := None;
     send_image := None; send_audio := None; send_replyTo := None |}.

Definition reactions_day : list Request :=
  [ToggleReaction "A" 0 (Some "heart"); SocketEvent (MessageReaction sA heart);
   SocketEvent (MessageReaction sB heart); ToggleReaction "B" 0 (Some "thumbsup");
   ToggleReaction "B" 0 (Some "heart"); SocketEvent (MessageSend sA hi);
   EditMessage "A" 1 (Some "hi there")].

(** * Properties *)

(** ** Running a callback step by step *)

Section Stepping.
Context {A B : Type}.

Lemma bind_eq (m : Async A) (k : A -> Async B) (w : World) :
  (m ≫= k) w =
  match m w with
  | (Return a, w') => k a w'
  | (Throw e, w') => (Throw e, w')
  end.
Proof. reflexivity. Qed.

(** With nothing scripted to fail, a store call returns. *)
Lemma await_ok (op : Db -> A * Db) (w : World) :
  faults w = [] ->
  await op w = (Return (op (db w)).1, set_db (op (db w)).2 w).
Proof. unfold await. intros ->. by destruct (op (db w)). Qed.

Lemma bind_await_ok (op : Db -> A * Db) (k : A -> Async B) (w : World) :
  faults w = [] ->
  (await op ≫= k) w = k (op (db w)).1 (set_db (op (db w)).2 w).
Proof. intros Hf. by rewrite bind_eq, await_ok. Qed.

(** A store call either rejects, touching nothing but the script, or
    returns what the operation computes. *)
Lemma await_cases (op : Db -> A * Db) (w : World) :
  (exists e rest, faults w = Some e :: rest /\ await op w = (Throw e, set_faults rest w))
  \/ (exists rest, await op w = (Return (op (db w)).1, set_db (op (db w)).2 (set_faults rest w))).
Proof.
  unfold await. destruct (faults w) as [|[e|] rest] eqn:Hf.
  - right. exists []. destruct (op (db w)). destruct w; simpl in *. by subst.
  - left. by exists e, rest.
  - right. exists rest. by destruct (op (db w)).
Qed.
End Stepping.

Section Primitives.
Context {B : Type} (k : unit -> Async B) (w : World).

Lemma bind_new_Date (k' : Date -> Async B) : (new_Date ≫= k') w = k' (now w) w.
Proof. reflexivity. Qed.

Lemma bind_socket_emit (s : Socket) (ev : ServerEvent) :
  (socket_emit s ev ≫= k) w = k tt (set_outbox (outbox w ++ [(socket_id s, ev)]) w).
Proof. reflexivity. Qed.

Lemma bind_io_to_emit (sid : SocketId) (ev : ServerEvent) :
  (io_to_emit sid ev ≫= k) w = k tt (set_outbox (outbox w ++ [(sid, ev)]) w).
Proof. reflexivity. Qed.

Lemma bind_socket_broadcast_emit (s : Socket) (ev : ServerEvent) :
  (socket_broadcast_emit s ev ≫= k) w =
  k tt (set_outbox (outbox w ++ ((fun t => (t, ev)) <$> broadcast_targets s (sockets w))) w).
Proof. reflexivity. Qed.

Lemma bind_userSockets_get (u : UserId) (k' : option SocketId -> Async B) :
  (userSockets_get u ≫= k') w = k' (userSockets w !! u) w.
Proof. reflexivity. Qed.

Lemma bind_userSockets_delete (u : UserId) (k' : bool -> Async B) :
  (userSockets_delete u ≫= k') w =
  k' (bool_decide (is_Some (userSockets w !! u))) (set_userSockets (delete u (userSockets w)) w).
Proof. reflexivity. Qed.
End Primitives.

(** Runs the callback in the goal as far as its primitives determine it,
    store calls included when the script is known to be empty. *)
Ltac run_callback :=
  repeat (first
    [ rewrite bind_await_ok by (simpl; assumption)
    | rewrite await_ok by (simpl; assumption)
    | rewrite bind_new_Date
    | rewrite bind_socket_emit
    | rewrite bind_io_to_emit
    | rewrite bind_socket_broadcast_emit
    | rewrite bind_userSockets_get
    | rewrite bind_userSockets_delete ];
    simpl).

(** ** Looking documents up *)

Lemma Message_findById_id (i : MessageId) (d : Db) (m : IMessage) :
  Message_findById i d = Some m -> _id m = i.
Proof.
  unfold Message_findById. intros H. apply find_some in H as [_ H].
  by apply bool_decide_eq_true in H.
Qed.

(** ** Sending *)

(** C4: a send from a sender with no contact edge to the receiver reports
    ['Can only send messages to contacts'] to the sender's own socket and
    leaves the store as it was: the error event is the only thing emitted,
    and it is the contact refusal whenever the lookup itself answered. *)
Theorem send_without_contact_is_refused (socket : Socket) (data : SendData) (w : World) :
  Contact_findOne (data_userId socket) (receiverId data) (db w) = None ->
  let w' := exec (on_message_send socket data) w in
  db w' = db w
  /\ userSockets w' = userSockets w
  /\ (exists msg, outbox w' = outbox w ++ [(socket_id socket, message_error msg)]
        /\ (faults w = [] -> msg = "Can only send messages to contacts")).
Proof.
  intros Hno. unfold exec, on_message_send, try_catch, message_send_try.
  rewrite bind_eq.
  destruct (await_cases (query (Contact_findOne (data_userId socket) (receiverId data))) w)
    as [(e & rest & Hf & ->) | (rest & ->)]; simpl.
  - repeat split; try done. exists e. split; [done|]. intros Hnil. congruence.
  - rewrite Hno. simpl. repeat split; try done. by eexists.
Qed.

Lemma send_without_contact_is_refused_witness :
  let w := initializeSocket empty_db 0 in
  let w' := exec (on_message_send refused_socket refused_data) w in
  db w' = db w
  /\ userSockets w' = userSockets w
  /\ (exists msg, outbox w' = outbox w ++ [(socket_id refused_socket, message_error msg)]
        /\ (faults w = [] -> msg = "Can only send messages to contacts")).
Proof.
  apply (send_without_contact_is_refused refused_socket refused_data
           (initializeSocket empty_db 0)).
  reflexivity.
Defined.

(** What a send does once the contact edge is found and the store answers:
    one document is appended, unread, carrying the payload's [replyTo] as it
    came; the sender gets the confirmation and a registered receiver the
    notification. *)
Lemma message_send_ok (socket : Socket) (data : SendData) (w : World) :
  faults w = [] ->
  is_Some (Contact_findOne (data_userId socket) (receiverId data) (db w)) ->
  let w' := exec (on_message_send socket data) w in
  let m :=
    {| _id := nextId (db w); sender := data_userId socket; receiver := receiverId data;
       content := trim <$> send_content data; image := send_image data;
       audio := send_audio data; type := default Text (send_type data);
       isRead := false; replyTo := send_replyTo data; isEdited := false;
       editedAt := None; reactions := []; createdAt := now w; updatedAt := now w |} in
  let pm := Message_findById_populate (nextId (db w)) (db w') in
  messages (db w') = messages (db w) ++ [m]
  /\ users (db w') = users (db w)
  /\ contacts (db w') = contacts (db w)
  /\ outbox w' =
       outbox w ++ (socket_id socket, message_sent pm) ::
         match userSockets w !! receiverId data with
         | Some sid => [(sid, message_receive pm)]
         | None => []
         end.
Proof.
  intros Hf [c Hc]. unfold exec, on_message_send, try_catch, message_send_try.
  run_callback. rewrite Hc. run_callback.
  destruct (userSockets w !! receiverId data) as [sid|]; simpl;
    repeat split; try done; by rewrite <- app_assoc.
Qed.

(** C5, as stated, fails: message 7 does not exist, yet the send with
    [replyTo = 7] stores a new message and confirms it to the sender; no
    error event is emitted. *)
Lemma send_unresolved_reply_counterexample :
  let w' := exec (on_message_send sA reply_to_nothing) a_online in
  Message_findById 7 (db a_online) = None
  /\ send_replyTo reply_to_nothing = Some 7
  /\ length (messages (db w')) = S (length (messages (db a_online)))
  /\ (replyTo <$> Message_findById 0 (db w')) = Some (Some 7)
  /\ exists pm, outbox w' = [("sA", message_sent pm)].
Proof. vm_compute. repeat split; by eexists. Qed.

(** C5, amended: a send between contacts whose [replyTo] resolves to no
    stored message is carried out like any other send.  The new message is
    appended, unread, with the dangling [replyTo] stored as given; the
    sender's socket gets the ['message:sent'] confirmation and a registered
    receiver the ['message:receive'] notification; no ['message:error'] is
    emitted. *)
Theorem send_keeps_unresolved_reply (socket : Socket) (data : SendData) (r : MessageId)
    (w : World) :
  faults w = [] ->
  is_Some (Contact_findOne (data_userId socket) (receiverId data) (db w)) ->
  send_replyTo data = Some r ->
  Message_findById r (db w) = None ->
  let w' := exec (on_message_send socket data) w in
  (exists m, messages (db w') = messages (db w) ++ [m]
     /\ _id m = nextId (db w) /\ replyTo m = Some r /\ isRead m = false
     /\ sender m = data_userId socket /\ receiver m = receiverId data)
  /\ (exists pm, outbox w' =
        outbox w ++ (socket_id socket, message_sent pm) ::
          match userSockets w !! receiverId data with
          | Some sid => [(sid, message_receive pm)]
          | None => []
          end)
  /\ (forall e, (socket_id socket, message_error e) ∈ outbox w' ->
                (socket_id socket, message_error e) ∈ outbox w).
Proof.
  intros Hf Hc Hr _ w'.
  destruct (message_send_ok socket data w Hf Hc) as (Hm & Hu & _ & Ho).
  fold w' in Hm, Hu, Ho. split; [|split].
  - eexists. split; [exact Hm|]. by rewrite Hr.
  - eexists. exact Ho.
  - intros e. rewrite Ho. rewrite elem_of_app, elem_of_cons.
    intros [?|[?|Hin]]; [done|done|].
    destruct (userSockets w !! receiverId data); [|by apply elem_of_nil in Hin].
    apply list_elem_of_singleton in Hin. done.
Qed.

Lemma send_keeps_unresolved_reply_witness :
  let w' := exec (on_message_send sA reply_to_nothing) a_online in
  (exists m, messages (db w') = messages (db a_online) ++ [m]
     /\ _id m = nextId (db a_online) /\ replyTo m = Some 7 /\ isRead m = false
     /\ sender m = data_userId sA /\ receiver m = receiverId reply_to_nothing)
  /\ (exists pm, outbox w' =
        outbox a_online ++ (socket_id sA, message_sent pm) ::
          match userSockets a_online !! receiverId reply_to_nothing with
          | Some sid => [(sid, message_receive pm)]
          | None => []
          end)
  /\ (forall e, (socket_id sA, message_error e) ∈ outbox w' ->
                (socket_id sA, message_error e) ∈ outbox a_online).
Proof.
  apply (send_keeps_unresolved_reply sA reply_to_nothing 7 a_online).
  - reflexivity.
  - vm_compute. by eexists.
  - reflexivity.
  - reflexivity.
Defined.

(** ** Editing *)

(** C7: an edit of a message that does not exist reports
    ['Message not found']; an edit by anyone but the sender reports
    ['Not authorized']; an edit by the sender of a message that is not text
    reports ['Can only edit text messages'].  In each case the error goes to
    the acting socket alone and the store, so the message with its content,
    [isEdited] and [editedAt], is as it was.  The checks run in this order:
    existence, ownership, kind. *)
Theorem edit_failures_leave_message (socket : Socket) (data : EditData) (w : World) :
  faults w = [] ->
  let w' := exec (on_message_edit socket data) w in
  let failed msg :=
    db w' = db w /\ outbox w' = outbox w ++ [(socket_id socket, message_error msg)] in
  (Message_findById (edit_messageId data) (db w) = None -> failed "Message not found")
  /\ (forall m,
        Message_findById (edit_messageId data) (db w) = Some m ->
        sender m ≠ data_userId socket ->
        failed "Not authorized"
        /\ Message_findById (edit_messageId data) (db w') = Some m)
  /\ (forall m,
        Message_findById (edit_messageId data) (db w) = Some m ->
        sender m = data_userId socket ->
        type m ≠ Text ->
        failed "Can only edit text messages"
        /\ Message_findById (edit_messageId data) (db w') = Some m).
Proof.
  intros Hf w' failed. subst w' failed.
  unfold exec, on_message_edit, try_catch, message_edit_try.
  run_callback. split; [|split].
  - intros ->. by simpl.
  - intros m Hm Hs. rewrite Hm. simpl. by rewrite bool_decide_eq_true_2.
  - intros m Hm Hs Ht. rewrite Hm. simpl.
    rewrite bool_decide_eq_false_2 by (intros ?; done).
    by rewrite bool_decide_eq_true_2.
Qed.

Lemma edit_failures_leave_message_witness :
  let w' := exec (on_message_edit sA caption) photo_world in
  let failed msg :=
    db w' = db photo_world
    /\ outbox w' = outbox photo_world ++ [(socket_id sA, message_error msg)] in
  (Message_findById (edit_messageId caption) (db photo_world) = None ->
   failed "Message not found")
  /\ (forall m,
        Message_findById (edit_messageId caption) (db photo_world) = Some m ->
        sender m ≠ data_userId sA ->
        failed "Not authorized"
        /\ Message_findById (edit_messageId caption) (db w') = Some m)
  /\ (forall m,
        Message_findById (edit_messageId caption) (db photo_world) = Some m ->
        sender m = data_userId sA ->
        type m ≠ Text ->
        failed "Can only edit text messages"
        /\ Message_findById (edit_messageId caption) (db w') = Some m).
Proof.
  apply (edit_failures_leave_message sA caption photo_world). reflexivity.
Defined.

(** The third case is met: A's own photo cannot be given a caption. *)
Example edit_photo_refused :
  outbox (exec (on_message_edit sA caption) photo_world)
  = [("sA", message_error "Can only edit text messages")]
  /\ messages (db (exec (on_message_edit sA caption) photo_world)) = [photo].
Proof. by vm_compute. Qed.

(** ** Read receipts *)

Lemma updateMany_read_no_match (s r : UserId) (t : Date) (d : Db) :
  List.filter (unread_from s r) (messages d) = [] ->
  (Message_updateMany_read s r t d).2 = d.
Proof.
  intros Hnone. destruct d as [us cs ms n]. unfold Message_updateMany_read. simpl in *.
  f_equal. induction ms as [|m ms IH]; [done|]. rewrite fmap_cons.
  simpl in Hnone. destruct (unread_from s r m); [done|]. by rewrite IH.
Qed.

(** What ['message:read'] does when the store answers. *)
Lemma message_read_ok (socket : Socket) (senderId : UserId) (w : World) :
  faults w = [] ->
  let w' := exec (on_message_read socket senderId) w in
  (on_message_read socket senderId w).1 = Return tt
  /\ db w' = (Message_updateMany_read senderId (data_userId socket) (now w) (db w)).2
  /\ userSockets w' = userSockets w
  /\ outbox w' =
       outbox w ++
         match userSockets w !! senderId with
         | Some sid => [(sid, message_read (data_userId socket))]
         | None => []
         end.
Proof.
  intros Hf. unfold exec, on_message_read, try_catch, message_read_try.
  run_callback.
  destruct (userSockets w !! senderId) as [sid|]; simpl; [done|].
  by rewrite app_nil_r.
Qed.

(** C3, as stated, fails: nothing from A to B is unread, A is connected, and
    B's ['message:read'] still pushes the read receipt to A's socket. *)
Lemma markRead_nothing_unread_counterexample :
  let w' := exec (on_message_read sB "A") a_online in
  List.filter (unread_from "A" "B") (messages (db a_online)) = []
  /\ userSockets a_online !! "A" = Some "sA"
  /\ outbox a_online = []
  /\ outbox w' = [("sA", message_read "B")].
Proof. by vm_compute. Qed.

(** C3, amended: when no unread message from A to B exists, B's
    ['message:read'] for A succeeds and changes nothing in the store; the
    read receipt naming B is pushed to A's socket exactly when A has one
    registered, as after any other ['message:read'], and nothing is emitted
    to anyone else. *)
Theorem markRead_nothing_unread (socket : Socket) (senderId : UserId) (w : World) :
  faults w = [] ->
  List.filter (unread_from senderId (data_userId socket)) (messages (db w)) = [] ->
  let w' := exec (on_message_read socket senderId) w in
  (on_message_read socket senderId w).1 = Return tt
  /\ db w' = db w
  /\ outbox w' =
       outbox w ++
         match userSockets w !! senderId with
         | Some sid => [(sid, message_read (data_userId socket))]
         | None => []
         end.
Proof.
  intros Hf Hnone w'.
  destruct (message_read_ok socket senderId w Hf) as (Hret & Hdb & _ & Hout).
  fold w' in Hdb, Hout. repeat split; [done| |done].
  by rewrite Hdb, updateMany_read_no_match.
Qed.

Lemma markRead_nothing_unread_witness :
  let w' := exec (on_message_read sB "A") a_online in
  (on_message_read sB "A" a_online).1 = Return tt
  /\ db w' = db a_online
  /\ outbox w' =
       outbox a_online ++
         match userSockets a_online !! "A" with
         | Some sid => [(sid, message_read (data_userId sB))]
         | None => []
         end.
Proof.
  apply (markRead_nothing_unread sB "A" a_online); reflexivity.
Defined.

(** ** Store failures *)

(** A [try] block that threw has emitted nothing: every store call of a
    callback comes before its first emit. *)
Lemma message_send_try_throw (socket : Socket) (data : SendData) (w w' : World) (e : string) :
  message_send_try socket data w = (Throw e, w') -> outbox w' = outbox w.
Proof.
  unfold message_send_try. rewrite bind_eq.
  destruct (await_cases (query (Contact_findOne (data_userId socket) (receiverId data))) w)
    as [(e1 & rest & _ & ->) | (rest & ->)]; simpl.
  { by intros [= _ <-]. }
  destruct (Contact_findOne _ _ _); [|done].
  rewrite bind_new_Date, bind_eq. simpl.
  match goal with |- context [await ?op ?w0] =>
    destruct (await_cases op w0) as [(e2 & rest2 & _ & ->) | (rest2 & ->)] end; simpl.
  { by intros [= _ <-]. }
  rewrite bind_eq.
  match goal with |- context [await ?op ?w0] =>
    destruct (await_cases op w0) as [(e3 & rest3 & _ & ->) | (rest3 & ->)] end; simpl.
  { by intros [= _ <-]. }
  rewrite bind_socket_emit, bind_userSockets_get. simpl.
  by destruct (userSockets w !! receiverId data).
Qed.

Lemma message_edit_try_throw (socket : Socket) (data : EditData) (w w' : World) (e : string) :
  message_edit_try socket data w = (Throw e, w') -> outbox w' = outbox w.
Proof.
  unfold message_edit_try. rewrite bind_eq.
  destruct (await_cases (query (Message_findById (edit_messageId data))) w)
    as [(e1 & rest & _ & ->) | (rest & ->)]; simpl.
  { by intros [= _ <-]. }
  destruct (Message_findById _ _) as [m|]; [|done].
  destruct (bool_decide (sender m ≠ data_userId socket)); [done|].
  destruct (bool_decide (type m ≠ Text)); [done|].
  rewrite bind_new_Date, bind_eq. simpl.
  match goal with |- context [await ?op ?w0] =>
    destruct (await_cases op w0) as [(e2 & rest2 & _ & ->) | (rest2 & ->)] end; simpl.
  { by intros [= _ <-]. }
  rewrite bind_eq.
  match goal with |- context [await ?op ?w0] =>
    destruct (await_cases op w0) as [(e3 & rest3 & _ & ->) | (rest3 & ->)] end; simpl.
  { by intros [= _ <-]. }
  rewrite bind_socket_emit, bind_userSockets_get. simpl.
  by destruct (userSockets w !! receiver m).
Qed.

Lemma message_reaction_try_throw (socket : Socket) (data : ReactionData) (w w' : World)
    (e : string) :
  message_reaction_try socket data w = (Throw e, w') -> outbox w' = outbox w.
Proof.
  unfold message_reaction_try. rewrite bind_eq.
  destruct (await_cases (query (Message_findById (messageId data))) w)
    as [(e1 & rest & _ & ->) | (rest & ->)]; simpl.
  { by intros [= _ <-]. }
  destruct (Message_findById _ _) as [m|]; [|done].
  rewrite bind_new_Date, bind_eq. simpl.
  match goal with |- context [await ?op ?w0] =>
    destruct (await_cases op w0) as [(e2 & rest2 & _ & ->) | (rest2 & ->)] end; simpl.
  { by intros [= _ <-]. }
  rewrite bind_eq.
  match goal with |- context [await ?op ?w0] =>
    destruct (await_cases op w0) as [(e3 & rest3 & _ & ->) | (rest3 & ->)] end; simpl.
  { by intros [= _ <-]. }
  rewrite bind_socket_emit, bind_userSockets_get. simpl.
  by destruct (userSockets w !! _).
Qed.

Lemma message_read_try_throw (socket : Socket) (senderId : UserId) (w w' : World)
    (e : string) :
  message_read_try socket senderId w = (Throw e, w') -> outbox w' = outbox w.
Proof.
  unfold message_read_try. rewrite bind_new_Date, bind_eq.
  match goal with |- context [await ?op ?w0] =>
    destruct (await_cases op w0) as [(e2 & rest2 & _ & ->) | (rest2 & ->)] end; simpl.
  { by intros [= _ <-]. }
  rewrite bind_userSockets_get. simpl.
  by destruct (userSockets w !! senderId).
Qed.

(** For send, edit and reaction a store failure reaches the initiating
    socket as one ['message:error'] carrying the error's message, and is
    followed by no push. *)
Lemma store_failure_reported (socket : Socket) (w w' : World) (e : string) :
  (forall data, message_send_try socket data w = (Throw e, w') ->
     outbox (exec (on_message_send socket data) w)
     = outbox w ++ [(socket_id socket, message_error e)])
  /\ (forall data, message_edit_try socket data w = (Throw e, w') ->
     outbox (exec (on_message_edit socket data) w)
     = outbox w ++ [(socket_id socket, message_error e)])
  /\ (forall data, message_reaction_try socket data w = (Throw e, w') ->
     outbox (exec (on_message_reaction socket data) w)
     = outbox w ++ [(socket_id socket, message_error e)]).
Proof.
  repeat split; intros data Hthrow;
    unfold exec, on_message_send, on_message_edit, on_message_reaction, try_catch;
    rewrite Hthrow; simpl.
  - by rewrite (message_send_try_throw _ _ _ _ _ Hthrow).
  - by rewrite (message_edit_try_throw _ _ _ _ _ Hthrow).
  - by rewrite (message_reaction_try_throw _ _ _ _ _ Hthrow).
Qed.

(** C9 at ['message:read']: when its one store call rejects, the callback
    ends normally having emitted nothing at all: nobody is sent a push, but
    the initiating socket is sent no error event either, unlike after a
    failed send, edit or reaction. *)
Theorem markRead_store_failure_is_silent (socket : Socket) (senderId : UserId) (w : World)
    (e : string) (rest : list (option string)) :
  faults w = Some e :: rest ->
  message_read_try socket senderId w = (Throw e, set_faults rest w)
  /\ (on_message_read socket senderId w).1 = Return tt
  /\ db (exec (on_message_read socket senderId) w) = db w
  /\ outbox (exec (on_message_read socket senderId) w) = outbox w.
Proof.
  intros Hf.
  assert (message_read_try socket senderId w = (Throw e, set_faults rest w)) as Ht.
  { unfold message_read_try. rewrite bind_new_Date, bind_eq. unfold await. by rewrite Hf. }
  split; [done|]. unfold exec, on_message_read, try_catch. by rewrite Ht.
Qed.

Lemma markRead_store_failure_is_silent_witness :
  message_read_try sB "A" store_down = (Throw "connection lost", set_faults [] store_down)
  /\ (on_message_read sB "A" store_down).1 = Return tt
  /\ db (exec (on_message_read sB "A") store_down) = db store_down
  /\ outbox (exec (on_message_read sB "A") store_down) = outbox store_down.
Proof.
  apply (markRead_store_failure_is_silent sB "A" store_down "connection lost" []).
  reflexivity.
Defined.

(** ** Reactions *)

Lemma same_reaction_pair (u : UserId) (e : string) (r : Reaction) :
  same_reaction u e r = true <-> (r_user r, r_emoji r) = (u, e).
Proof.
  unfold same_reaction. rewrite andb_true_iff, !bool_decide_eq_true.
  split; [by intros [-> ->] | by intros [= -> ->]].
Qed.

Lemma find_same_reaction_None (u : UserId) (e : string) (l : list Reaction) :
  find (same_reaction u e) l = None <-> (u, e) ∉ reaction_pairs l.
Proof.
  unfold reaction_pairs. induction l as [|r l IH].
  - split; [intros _; apply not_elem_of_nil | done].
  - rewrite fmap_cons, not_elem_of_cons, <- IH. simpl.
    destruct (same_reaction u e r) eqn:Hr.
    + apply same_reaction_pair in Hr. split; [done|]. intros [Hne _]. by destruct Hne.
    + split; [|by intros [_ ?]]. intros Hl. split; [|done].
      intros Heq. symmetry in Heq. apply same_reaction_pair in Heq. congruence.
Qed.


(** One toggle: the pair is added at the end when absent, and every entry
    with that pair is filtered out when present. *)
Lemma toggle_absent (u : UserId) (e : string) (t : Date) (l : list Reaction) :
  (u, e) ∉ reaction_pairs l ->
  toggle u e t l = l ++ [{| r_user := u; r_emoji := e; r_createdAt := t |}].
Proof. intros H. apply find_same_reaction_None in H. unfold toggle. by rewrite H. Qed.

Lemma toggle_present (u : UserId) (e : string) (t : Date) (l : list Reaction) :
  (u, e) ∈ reaction_pairs l ->
  toggle u e t l = List.filter (fun r => negb (same_reaction u e r)) l.
Proof.
  intros H. unfold toggle.
  destruct (find (same_reaction u e) l) eqn:Hfind; [done|].
  by apply find_same_reaction_None in Hfind.
Qed.



(** [save] then [findById]: the document read back is the one saved. *)
Lemma find_replace_doc (i : MessageId) (m m' : IMessage) (l : list IMessage) :
  find (fun x => bool_decide (_id x = i)) l = Some m ->
  _id m' = i ->
  find (fun x => bool_decide (_id x = i)) (replace_doc m' l) = Some m'.
Proof.
  intros Hfind Hid. induction l as [|x l IH]; [done|]. simpl in *.
  case_bool_decide as Hx.
  - rewrite bool_decide_eq_true_2 by congruence. simpl.
    by rewrite bool_decide_eq_true_2.
  - rewrite bool_decide_eq_false_2 by congruence. simpl.
    rewrite bool_decide_eq_false_2 by done. by apply IH.
Qed.




(** A's heart on B's like: added by the first toggle, gone after the
    second, B's like untouched. *)
Example toggle_heart_twice :
  (reactions <$> Message_findById 0 (db (exec (on_message_reaction sA heart) liked_world)))
  = Some [ {| r_user := "B"; r_emoji := "thumbsup"; r_createdAt := 6 |};
           {| r_user := "A"; r_emoji := "heart"; r_createdAt := 10 |} ]
  /\ (reactions <$> Message_findById 0
        (db (run liked_world [MessageReaction sA heart; Tick 20; MessageReaction sA heart])))
     = Some [ {| r_user := "B"; r_emoji := "thumbsup"; r_createdAt := 6 |} ].
Proof. by vm_compute. Qed.

(** ** Chat history *)

Lemma elem_of_insert_by_createdAt (x y : PopulatedMessage) (l : list PopulatedMessage) :
  x ∈ insert_by_createdAt y l <-> x = y \/ x ∈ l.
Proof.
  induction l as [|z l IH]; simpl.
  - rewrite list_elem_of_singleton, elem_of_nil. tauto.
  - destruct (createdAt (doc y) <=? createdAt (doc z))%nat.
    + by rewrite elem_of_cons.
    + rewrite !elem_of_cons, IH. tauto.
Qed.

Lemma elem_of_sort_by_createdAt (x : PopulatedMessage) (l : list PopulatedMessage) :
  x ∈ sort_by_createdAt l <-> x ∈ l.
Proof.
  unfold sort_by_createdAt. induction l as [|y l IH]; simpl; [done|].
  by rewrite elem_of_insert_by_createdAt, elem_of_cons, IH.
Qed.

(** What [getChatHistory] does for a contact when the store answers: the
    reply is built from the documents as found, and then every unread
    message addressed to the caller by the other user is set read. *)
Lemma getChatHistory_ok (currentUserId userId : UserId) (w : World) :
  faults w = [] ->
  is_Some (Contact_findOne currentUserId userId (db w)) ->
  (getChatHistory currentUserId userId w).1
    = Return (sendSuccess 200 "Chat history fetched successfully"
                (Message_find_between currentUserId userId (db w)))
  /\ db (exec (getChatHistory currentUserId userId) w)
     = (Message_updateMany_read userId currentUserId (now w) (db w)).2
  /\ outbox (exec (getChatHistory currentUserId userId) w) = outbox w.
Proof.
  intros Hf [c Hc]. unfold exec, getChatHistory, try_catch.
  run_callback. rewrite Hc. run_callback. done.
Qed.

(** C1, as stated, fails: A sends "hi" while B is offline; B connects and
    fetches the history with A; the reply shows the message unread, but the
    stored message is read from then on, with no ['message:read'] from B. *)
Lemma history_keeps_unread_counterexample :
  let w1 := exec (on_message_send sA hi) a_online in
  let v := run w1 [Tick 20; Connection sB] in
  let v' := exec (getChatHistory "B" "A") v in
  userSockets a_online !! "B" = None
  /\ (isRead <$> Message_findById 0 (db w1)) = Some false
  /\ (isRead <$> Message_findById 0 (db v)) = Some false
  /\ (isRead <$> Message_findById 0 (db v')) = Some true.
Proof. by vm_compute. Qed.

(** C1, amended: a message A sends to B while B is offline is stored with
    [isRead = false] and only A's socket hears of it.  When B then fetches
    the chat history with A, the reply lists the message as it was found,
    still unread; but the retrieval itself sets [isRead = true] on every
    stored unread message from A to B, this one included, just as B's
    ['message:read'] for A would.  After the retrieval no message from A to
    B is unread. *)
Theorem history_retrieval_marks_read (socket : Socket) (data : SendData) (w v : World) :
  let a := data_userId socket in
  let b := receiverId data in
  faults w = [] ->
  is_Some (Contact_findOne a b (db w)) ->
  userSockets w !! b = None ->
  let w1 := exec (on_message_send socket data) w in
  db v = db w1 ->
  faults v = [] ->
  is_Some (Contact_findOne b a (db v)) ->
  let v' := exec (getChatHistory b a) v in
  exists m,
    messages (db w1) = messages (db w) ++ [m]
    /\ isRead m = false /\ sender m = a /\ receiver m = b
    /\ (exists pm, outbox w1 = outbox w ++ [(socket_id socket, message_sent pm)])
    /\ (exists found,
          (getChatHistory b a v).1
            = Return (sendSuccess 200 "Chat history fetched successfully" found)
          /\ populate false (db w1) m ∈ found)
    /\ messages (db v')
       = ((fun x => if unread_from a b x then set_isRead (now v) x else x) <$> messages (db w))
           ++ [set_isRead (now v) m]
    /\ List.filter (unread_from a b) (messages (db v')) = [].
Proof.
  intros a b Hf Hc Hoff w1 Hdb Hfv Hcv v'.
  destruct (message_send_ok socket data w Hf Hc) as (Hm & _ & _ & Ho).
  fold w1 a b in Hm, Ho. rewrite Hoff in Ho.
  destruct (getChatHistory_ok b a v Hfv Hcv) as (Hret & Hdb' & _). fold v' in Hdb'.
  eexists. split; [exact Hm|]. simpl. repeat split.
  - by eexists.
  - eexists. split; [exact Hret|]. rewrite Hdb.
    unfold Message_find_between. rewrite elem_of_sort_by_createdAt.
    apply list_elem_of_fmap_2. apply list_elem_of_In, filter_In. split.
    + apply list_elem_of_In. rewrite Hm. apply elem_of_app. right. by left.
    + unfold between. simpl. fold a b.
      rewrite !(bool_decide_eq_true_2 (a = a)), !(bool_decide_eq_true_2 (b = b)) by done.
      by rewrite orb_true_r.
  - rewrite Hdb'. unfold Message_updateMany_read. simpl. rewrite Hdb, Hm, fmap_app.
    f_equal. simpl. unfold unread_from. simpl. fold a b.
    by rewrite !bool_decide_eq_true_2.
  - rewrite Hdb'. unfold Message_updateMany_read. simpl.
    generalize (messages (db v)). intros l.
    induction l as [|x l IH]; [done|]. rewrite fmap_cons. cbn [List.filter].
    destruct (unread_from a b x) eqn:Hx.
    + unfold unread_from in *. simpl. rewrite andb_false_r. exact IH.
    + rewrite Hx. exact IH.
Qed.

Lemma history_retrieval_marks_read_witness :
  let w1 := exec (on_message_send sA hi) a_online in
  let v := run w1 [Tick 20; Connection sB] in
  let v' := exec (getChatHistory "B" "A") v in
  exists m,
    messages (db w1) = messages (db a_online) ++ [m]
    /\ isRead m = false /\ sender m = "A" /\ receiver m = "B"
    /\ (exists pm, outbox w1 = outbox a_online ++ [(socket_id sA, message_sent pm)])
    /\ (exists found,
          (getChatHistory "B" "A" v).1
            = Return (sendSuccess 200 "Chat history fetched successfully" found)
          /\ populate false (db w1) m ∈ found)
    /\ messages (db v')
       = ((fun x => if unread_from "A" "B" x then set_isRead (now v) x else x)
            <$> messages (db a_online))
           ++ [set_isRead (now v) m]
    /\ List.filter (unread_from "A" "B") (messages (db v')) = [].
Proof.
  apply (history_retrieval_marks_read sA hi a_online
           (run (exec (on_message_send sA hi) a_online) [Tick 20; Connection sB])).
  - reflexivity.
  - vm_compute. by eexists.
  - reflexivity.
  - reflexivity.
  - reflexivity.
  - vm_compute. by eexists.
Defined.

(** ** The session registry: [io.userSockets] *)

Lemma filter_key_NoDup (U : UserId) (l : list (string * string)) :
  NoDup (l.*1) ->
  (forall h, (U, h) ∈ l -> filter (fun p => p.1 = U) l = [(U, h)])
  /\ ((forall h, (U, h) ∉ l) -> filter (fun p => p.1 = U) l = []).
Proof.
  induction l as [|[k x] l IH]; intros Hnd.
  - split; [intros h Hin; by apply elem_of_nil in Hin | done].
  - rewrite fmap_cons in Hnd. apply NoDup_cons in Hnd as [Hk Hnd].
    destruct (IH Hnd) as [IHin IHout]. simpl in Hk.
    destruct (decide (k = U)) as [->|Hne].
    + assert (filter (fun p : string * string => p.1 = U) l = []) as Hrest.
      { apply IHout. intros h Hin. apply Hk.
        apply list_elem_of_fmap. by exists (U, h). }
      split.
      * intros h Hin. rewrite filter_cons_True by done. rewrite Hrest.
        apply elem_of_cons in Hin as [[= ->]|Hin]; [done|].
        destruct Hk. apply list_elem_of_fmap. by exists (U, h).
      * intros Hout. destruct (Hout x). by left.
    + split.
      * intros h Hin. rewrite filter_cons_False by done.
        apply elem_of_cons in Hin as [[= -> _]|Hin]; [done|]. by apply IHin.
      * intros Hout. rewrite filter_cons_False by done. apply IHout.
        intros h Hin. apply (Hout h). by right.
Qed.

Lemma handles_of_lookup (U : UserId) (m : gmap string string) :
  handles_of U m = match m !! U with Some h => [h] | None => [] end.
Proof.
  unfold handles_of.
  destruct (filter_key_NoDup U (map_to_list m) (NoDup_fst_map_to_list m)) as [Hin Hout].
  destruct (m !! U) as [h|] eqn:Hm.
  - rewrite (Hin h); [done|]. by apply elem_of_map_to_list.
  - rewrite Hout; [done|]. intros h Hh. apply elem_of_map_to_list in Hh. congruence.
Qed.

(** C10: in every state the server can reach, the registry holds at most
    one handle for a user; a registration makes the new socket the user's
    only handle, whether or not the user had one, and touches no other
    user's handle. *)
Theorem registry_at_most_one_handle (d : Db) (t : Date) (trace : list ClientEvent)
    (U : UserId) (s : Socket) :
  let w := run (initializeSocket d t) trace in
  let w' := step w (Connection s) in
  (length (handles_of U (userSockets w)) ≤ 1)%nat
  /\ handles_of (data_userId s) (userSockets w') = [socket_id s]
  /\ userSockets w' !! data_userId s = Some (socket_id s)
  /\ (U ≠ data_userId s -> handles_of U (userSockets w') = handles_of U (userSockets w)).
Proof.
  intros w w'. split; [|split; [|split]].
  - rewrite handles_of_lookup. destruct (userSockets w !! U); simpl; lia.
  - rewrite handles_of_lookup. subst w'. simpl. by rewrite lookup_insert_eq.
  - subst w'. simpl. by rewrite lookup_insert_eq.
  - intros Hne. rewrite !handles_of_lookup. subst w'. simpl.
    by rewrite lookup_insert_ne.
Qed.

Lemma registry_at_most_one_handle_witness :
  let w := run (initializeSocket chat_db 10) [Connection sA; Connection sB] in
  let w' := step w (Connection sA2) in
  (length (handles_of "B" (userSockets w)) ≤ 1)%nat
  /\ handles_of (data_userId sA2) (userSockets w') = [socket_id sA2]
  /\ userSockets w' !! data_userId sA2 = Some (socket_id sA2)
  /\ ("B" ≠ data_userId sA2 -> handles_of "B" (userSockets w') = handles_of "B" (userSockets w)).
Proof.
  exact (registry_at_most_one_handle chat_db 10 [Connection sA; Connection sB] "B" sA2).
Defined.

(** Registering the second device replaces the first handle. *)
Example register_replaces :
  handles_of "A" (userSockets (run (initializeSocket chat_db 10) [Connection sA])) = ["sA"]
  /\ handles_of "A" (userSockets (run (initializeSocket chat_db 10)
                                      [Connection sA; Connection sA2])) = ["sA2"].
Proof. by vm_compute. Qed.

(** What the presence handler's ['disconnect'] does for an authenticated
    socket when the store answers. *)
Lemma on_disconnect_ok (s : Socket) (w : World) :
  faults w = [] ->
  data_userId s ≠ "" ->
  let w' := exec (on_disconnect s) w in
  (on_disconnect s w).1 = Return tt
  /\ userSockets w' = delete (data_userId s) (userSockets w)
  /\ db w' = (User_findByIdAndUpdate (data_userId s) false (Some (now w)) (db w)).2
  /\ outbox w' =
       outbox w ++
         ((fun t => (t, user_status (data_userId s) false)) <$> broadcast_targets s (sockets w)).
Proof.
  intros Hf Hu. unfold exec, on_disconnect, try_catch.
  rewrite bool_decide_eq_true_2 by done. by run_callback.
Qed.

(** When the store rejects the update, the [delete] is never reached. *)
Lemma on_disconnect_store_failure (s : Socket) (w : World) (e : string)
    (rest : list (option string)) :
  faults w = Some e :: rest ->
  userSockets (exec (on_disconnect s) w) = userSockets w.
Proof.
  intros Hf. unfold exec, on_disconnect, try_catch.
  case_bool_decide; [|done].
  rewrite bind_new_Date, bind_eq. unfold await. by rewrite Hf.
Qed.

(** C2, as stated, fails: the stale socket's disconnect removes the fresher
    handle. *)
Lemma stale_disconnect_counterexample :
  userSockets reconnected !! "A" = Some "sA2"
  /\ data_userId sA = "A"
  /\ socket_id sA ≠ "sA2"
  /\ userSockets (step reconnected (Disconnect sA)) !! "A" = None.
Proof. by vm_compute. Qed.

(** C2, amended: the disconnect of a socket authenticated as U removes U's
    mapping whatever handle is stored there, the store's update having
    succeeded: the stored handle is not compared with the disconnecting
    socket, so a stale disconnect removes a fresher handle too.  Other
    users keep their handles.  [Map.delete] answers that a removal occurred,
    and the callback drops that answer. *)
Theorem disconnect_removes_any_handle (s : Socket) (w : World) (h' : SocketId) :
  faults w = [] ->
  data_userId s ≠ "" ->
  userSockets w !! data_userId s = Some h' ->
  let w' := exec (on_disconnect s) w in
  userSockets w' = delete (data_userId s) (userSockets w)
  /\ userSockets w' !! data_userId s = None
  /\ (forall V, V ≠ data_userId s -> userSockets w' !! V = userSockets w !! V)
  /\ (userSockets_delete (data_userId s) w).1 = Return true
  /\ (on_disconnect s w).1 = Return tt.
Proof.
  intros Hf Hu Hh w'.
  destruct (on_disconnect_ok s w Hf Hu) as (Hret & Hmap & _). fold w' in Hmap.
  rewrite Hmap. repeat split; [by rewrite lookup_delete_eq | | | done].
  - intros V HV. by rewrite lookup_delete_ne.
  - unfold userSockets_delete. simpl. rewrite Hh. by rewrite bool_decide_eq_true_2.
Qed.

Lemma disconnect_removes_any_handle_witness :
  let w' := exec (on_disconnect sA) reconnected in
  userSockets w' = delete (data_userId sA) (userSockets reconnected)
  /\ userSockets w' !! data_userId sA = None
  /\ (forall V, V ≠ data_userId sA -> userSockets w' !! V = userSockets reconnected !! V)
  /\ (userSockets_delete (data_userId sA) reconnected).1 = Return true
  /\ (on_disconnect sA reconnected).1 = Return tt.
Proof.
  apply (disconnect_removes_any_handle sA reconnected "sA2").
  - reflexivity.
  - discriminate.
  - reflexivity.
Defined.

(** ** Presence *)

(** What ['user:online'] does when the store answers. *)
Lemma on_user_online_ok (s : Socket) (w : World) :
  faults w = [] ->
  let w' := exec (on_user_online s) w in
  db w' = (User_findByIdAndUpdate (data_userId s) true None (db w)).2
  /\ userSockets w' = userSockets w
  /\ outbox w' =
       outbox w ++
         ((fun t => (t, user_status (data_userId s) true)) <$> broadcast_targets s (sockets w)).
Proof.
  intros Hf. unfold exec, on_user_online, try_catch. by run_callback.
Qed.

(** C8, as stated, fails: A registers a first handle while B is registered;
    the store still has A offline and nothing is broadcast. *)
Lemma register_first_handle_counterexample :
  let w' := step b_online (Connection sA) in
  userSockets b_online !! "A" = None
  /\ userSockets b_online !! "B" = Some "sB"
  /\ userSockets w' !! "A" = Some "sA"
  /\ (isOnline <$> users (db w') !! "A") = Some false
  /\ outbox w' = outbox b_online.
Proof. by vm_compute. Qed.

(** C8, amended: registering a handle only writes the registry: the store
    and the emitted events are as before.  The user is marked online in the
    store, and ['user:status'] with [isOnline: true] is broadcast to every
    other connected socket, when the client's own ['user:online'] signal is
    handled, whether or not the handle is the user's first. *)
Theorem online_is_announced_by_user_online (s : Socket) (w : World) :
  faults w = [] ->
  let U := data_userId s in
  let w1 := step w (Connection s) in
  let w2 := step w1 (UserOnline s) in
  (db w1 = db w /\ outbox w1 = outbox w
   /\ userSockets w1 = <[U := socket_id s]> (userSockets w))
  /\ (isOnline <$> users (db w2) !! U) = ((fun _ => true) <$> users (db w) !! U)
  /\ (forall V, V ≠ U -> users (db w2) !! V = users (db w) !! V)
  /\ outbox w2 =
       outbox w ++ ((fun t => (t, user_status U true)) <$> broadcast_targets s (sockets w))
  /\ userSockets w2 = userSockets w1.
Proof.
  intros Hf U w1 w2.
  assert (db w1 = db w /\ outbox w1 = outbox w /\ sockets w1 = sockets w ++ [s]
          /\ faults w1 = [] /\ userSockets w1 = <[U := socket_id s]> (userSockets w))
    as (Hd1 & Ho1 & Hs1 & Hf1 & Hu1) by done.
  destruct (on_user_online_ok s w1 Hf1) as (Hd2 & Hu2 & Ho2).
  change (exec (on_user_online s) w1) with w2 in Hd2, Hu2, Ho2.
  split; [done|]. rewrite Hd2, Ho2, Hd1, Ho1, Hs1. simpl. fold U.
  split; [|split; [|split; [|done]]].
  - rewrite lookup_alter_eq. by destruct (users (db w) !! U).
  - intros V HV. by rewrite lookup_alter_ne.
  - f_equal. f_equal. unfold broadcast_targets. f_equal.
    rewrite filter_app. rewrite (filter_cons_False _ s) by (intros H; by apply H).
    by rewrite filter_nil, app_nil_r.
Qed.

Lemma online_is_announced_by_user_online_witness :
  let U := data_userId sA in
  let w1 := step b_online (Connection sA) in
  let w2 := step w1 (UserOnline sA) in
  (db w1 = db b_online /\ outbox w1 = outbox b_online
   /\ userSockets w1 = <[U := socket_id sA]> (userSockets b_online))
  /\ (isOnline <$> users (db w2) !! U) = ((fun _ => true) <$> users (db b_online) !! U)
  /\ (forall V, V ≠ U -> users (db w2) !! V = users (db b_online) !! V)
  /\ outbox w2 =
       outbox b_online ++
         ((fun t => (t, user_status U true)) <$> broadcast_targets sA (sockets b_online))
  /\ userSockets w2 = userSockets w1.
Proof.
  apply (online_is_announced_by_user_online sA b_online). reflexivity.
Defined.

(** A's ['user:online'] is what B's socket hears. *)
Example user_online_reaches_b :
  outbox (run b_online [Connection sA; UserOnline sA]) = [("sB", user_status "A" true)]
  /\ (isOnline <$> users (db (run b_online [Connection sA; UserOnline sA])) !! "A") = Some true.
Proof. by vm_compute. Qed.

(** * Further properties of the callbacks *)

(** ** Identifiers *)

Lemma find_append {A} (f : A -> bool) (l1 l2 : list A) :
  find f (l1 ++ l2) = match find f l1 with Some x => Some x | None => find f l2 end.
Proof. induction l1 as [|x l1 IH]; simpl; [done|]. by destruct (f x). Qed.

Lemma find_id_None (i : MessageId) (l : list IMessage) :
  i ∉ _id <$> l -> find (fun m => bool_decide (_id m = i)) l = None.
Proof.
  induction l as [|x l IH]; [done|]. rewrite fmap_cons, not_elem_of_cons.
  intros [Hne Hl]. simpl. rewrite bool_decide_eq_false_2 by done. by apply IH.
Qed.

Lemma find_id_Some (i : MessageId) (l : list IMessage) (m : IMessage) :
  find (fun x => bool_decide (_id x = i)) l = Some m -> m ∈ l /\ _id m = i.
Proof.
  intros H. apply find_some in H as [Hin Hid]. split; [by apply list_elem_of_In|].
  by apply bool_decide_eq_true in Hid.
Qed.

(** With unique identifiers, looking a stored document up by its own
    identifier finds it. *)
Lemma find_id_elem (l : list IMessage) (m : IMessage) :
  NoDup (_id <$> l) -> m ∈ l -> find (fun x => bool_decide (_id x = _id m)) l = Some m.
Proof.
  induction l as [|x l IH]; intros Hnd Hin; [by apply elem_of_nil in Hin|].
  rewrite fmap_cons in Hnd. apply NoDup_cons in Hnd as [Hx Hnd]. simpl.
  apply elem_of_cons in Hin as [->|Hin].
  - by rewrite bool_decide_eq_true_2.
  - rewrite bool_decide_eq_false_2; [by apply IH|].
    intros Heq. apply Hx. rewrite Heq. by apply list_elem_of_fmap_2.
Qed.

Lemma store_wf_fresh (d : Db) : store_wf d -> Message_findById (nextId d) d = None.
Proof.
  intros [Hlt _]. apply find_id_None. intros Hin.
  apply list_elem_of_fmap in Hin as (m & Hid & Hm).
  rewrite Forall_forall in Hlt. specialize (Hlt m Hm). lia.
Qed.

Lemma Message_create_findById (data : MessageData) (t : Date) (d : Db) :
  store_wf d ->
  Message_findById (nextId d) (Message_create data t d).2 = Some (Message_create data t d).1.
Proof.
  intros Hwf. apply store_wf_fresh in Hwf. unfold Message_findById in *. simpl.
  rewrite find_append, Hwf. simpl. by rewrite bool_decide_eq_true_2.
Qed.

(** ** Sending, editing, reacting, reading: the paths that go through *)

(** A send between contacts stores one unread message under a fresh
    identifier, and the sender's confirmation and the receiver's
    notification both carry that very message, populated. *)
Theorem send_delivers (socket : Socket) (data : SendData) (w : World) :
  faults w = [] ->
  store_wf (db w) ->
  is_Some (Contact_findOne (data_userId socket) (receiverId data) (db w)) ->
  let w' := exec (on_message_send socket data) w in
  exists m,
    messages (db w') = messages (db w) ++ [m]
    /\ Message_findById (_id m) (db w') = Some m
    /\ Message_findById (_id m) (db w) = None
    /\ sender m = data_userId socket /\ receiver m = receiverId data
    /\ isRead m = false /\ isEdited m = false /\ reactions m = []
    /\ type m = default Text (send_type data)
    /\ outbox w' =
         outbox w ++ (socket_id socket, message_sent (Some (populate true (db w') m))) ::
           match userSockets w !! receiverId data with
           | Some sid => [(sid, message_receive (Some (populate true (db w') m)))]
           | None => []
           end.
Proof.
  intros Hf Hwf Hc w'.
  destruct (message_send_ok socket data w Hf Hc) as (Hm & Hu & Hk & Ho).
  fold w' in Hm, Hu, Hk, Ho.
  eexists. split; [exact Hm|]. simpl.
  assert (Message_findById (nextId (db w)) (db w') = Some
    {| _id := nextId (db w); sender := data_userId socket; receiver := receiverId data;
       content := trim <$> send_content data; image := send_image data;
       audio := send_audio data; type := default Text (send_type data);
       isRead := false; replyTo := send_replyTo data; isEdited := false;
       editedAt := None; reactions := []; createdAt := now w; updatedAt := now w |}) as Hfind.
  { unfold Message_findById. rewrite Hm, find_append.
    pose proof (store_wf_fresh _ Hwf) as Hfresh. unfold Message_findById in Hfresh.
    rewrite Hfresh. simpl. by rewrite bool_decide_eq_true_2. }
  split; [exact Hfind|]. split; [by apply store_wf_fresh|].
  repeat split. rewrite Ho. unfold Message_findById_populate. by rewrite Hfind.
Qed.

Lemma bind_assoc {A B C} (m : Async A) (f : A -> Async B) (g : B -> Async C) (w : World) :
  ((m ≫= f) ≫= g) w = (m ≫= fun a => f a ≫= g) w.
Proof. rewrite !bind_eq. by destruct (m w) as [[a|e] w']. Qed.

Section Scripted.
Context {A B : Type}.

(** The store call the script lets through, and the one it fails. *)
Lemma bind_await_pass (op : Db -> A * Db) (k : A -> Async B) (w : World)
    (rest : list (option string)) :
  faults w = None :: rest ->
  (await op ≫= k) w = k (op (db w)).1 (set_db (op (db w)).2 (set_faults rest w)).
Proof. intros Hf. rewrite bind_eq. unfold await. rewrite Hf. by destruct (op (db w)). Qed.

Lemma bind_await_fail (op : Db -> A * Db) (k : A -> Async B) (w : World) (e : string)
    (rest : list (option string)) :
  faults w = Some e :: rest ->
  (await op ≫= k) w = (Throw e, set_faults rest w).
Proof. intros Hf. rewrite bind_eq. unfold await. by rewrite Hf. Qed.
End Scripted.

(** A send is not all-or-nothing: when the store takes the new message and
    then fails the read-back for the confirmation, the message stays stored,
    the sender is told the send failed, and the receiver hears nothing. *)
Theorem send_stored_but_reported_failed (socket : Socket) (data : SendData) (w : World)
    (e : string) (rest : list (option string)) :
  faults w = None :: None :: Some e :: rest ->
  is_Some (Contact_findOne (data_userId socket) (receiverId data) (db w)) ->
  let w' := exec (on_message_send socket data) w in
  (exists m, messages (db w') = messages (db w) ++ [m]
     /\ sender m = data_userId socket /\ receiver m = receiverId data /\ isRead m = false)
  /\ outbox w' = outbox w ++ [(socket_id socket, message_error e)].
Proof.
  intros Hf [c Hc]. unfold exec, on_message_send, try_catch, message_send_try.
  rewrite (bind_await_pass _ _ _ _ Hf). simpl. rewrite Hc. simpl.
  split; [|done]. by eexists.
Qed.

(** The document an edit stores. *)
Lemma find_replace_doc_ne (i : MessageId) (m' : IMessage) (l : list IMessage) :
  _id m' ≠ i ->
  find (fun x => bool_decide (_id x = i)) (replace_doc m' l)
  = find (fun x => bool_decide (_id x = i)) l.
Proof.
  intros Hne. induction l as [|x l IH]; [done|]. simpl.
  case_bool_decide as Hx; simpl.
  - rewrite bool_decide_eq_false_2 by done.
    by rewrite bool_decide_eq_false_2 by congruence.
  - by rewrite IH.
Qed.



Lemma find_id_fmap (f : IMessage -> IMessage) (i : MessageId) (l : list IMessage) :
  (forall m, _id (f m) = _id m) ->
  find (fun x => bool_decide (_id x = i)) (f <$> l)
  = f <$> find (fun x => bool_decide (_id x = i)) l.
Proof.
  intros Hid. induction l as [|x l IH]; [done|]. rewrite fmap_cons. simpl.
  rewrite Hid. by destruct (bool_decide (_id x = i)).
Qed.

Lemma updateMany_read_findById (s r : UserId) (t : Date) (d : Db) (i : MessageId) :
  Message_findById i (Message_updateMany_read s r t d).2
  = (fun m => if unread_from s r m then set_isRead t m else m) <$> Message_findById i d.
Proof.
  unfold Message_findById. simpl. apply find_id_fmap.
  intros m. by destruct (unread_from s r m).
Qed.

Lemma updateMany_read_none_left (s r : UserId) (t : Date) (d : Db) :
  List.filter (unread_from s r) (messages (Message_updateMany_read s r t d).2) = [].
Proof.
  simpl. induction (messages d) as [|x l IH]; [done|]. rewrite fmap_cons. cbn [List.filter].
  destruct (unread_from s r x) eqn:Hx.
  - unfold unread_from in *. simpl. rewrite andb_false_r. exact IH.
  - rewrite Hx. exact IH.
Qed.

(** After a ['message:read'] that went through, nothing from that sender to
    the reader is unread; each stored message is either one of those, now
    read, or exactly as before; the sender's registered socket gets the
    receipt. *)
Theorem markRead_marks_all (socket : Socket) (senderId : UserId) (w : World) :
  faults w = [] ->
  let b := data_userId socket in
  let w' := exec (on_message_read socket senderId) w in
  List.filter (unread_from senderId b) (messages (db w')) = []
  /\ (forall i, Message_findById i (db w')
        = (fun m => if unread_from senderId b m then set_isRead (now w) m else m)
            <$> Message_findById i (db w))
  /\ (forall i m, Message_findById i (db w) = Some m -> isRead m = true ->
        Message_findById i (db w') = Some m)
  /\ outbox w' =
       outbox w ++
         match userSockets w !! senderId with
         | Some sid => [(sid, message_read b)]
         | None => []
         end.
Proof.
  intros Hf b w'.
  destruct (message_read_ok socket senderId w Hf) as (_ & Hdb & _ & Ho).
  fold w' b in Hdb, Ho. rewrite Hdb. split; [apply updateMany_read_none_left|].
  split; [intros i; apply updateMany_read_findById|]. split; [|exact Ho].
  intros i m Hm Hread. rewrite updateMany_read_findById, Hm. simpl.
  unfold unread_from. rewrite Hread. simpl. by rewrite andb_false_r.
Qed.

(** ** One write per request *)

Ltac run_pure :=
  repeat (first
    [ rewrite bind_assoc
    | rewrite bind_new_Date
    | rewrite bind_socket_emit
    | rewrite bind_io_to_emit
    | rewrite bind_socket_broadcast_emit
    | rewrite bind_userSockets_get
    | rewrite bind_userSockets_delete ]; simpl).

(** Splits on the outcome of the next store call of the callback. *)
Ltac await_split :=
  run_pure;
  match goal with
  | |- context [(await ?op ≫= ?k) ?w0] =>
      rewrite (bind_eq (await op) k w0);
      destruct (await_cases op w0) as [(? & ? & _ & ->) | (? & ->)]; simpl
  | |- context [await ?op ?w0] =>
      destruct (await_cases op w0) as [(? & ? & _ & ->) | (? & ->)]; simpl
  end.

(** Runs the callback on the world whose script is empty. *)
Ltac run_clean :=
  unfold exec, try_catch;
  repeat (first
    [ rewrite bind_assoc
    | rewrite bind_await_ok by reflexivity
    | rewrite await_ok by reflexivity
    | rewrite bind_new_Date
    | rewrite bind_socket_emit
    | rewrite bind_io_to_emit
    | rewrite bind_socket_broadcast_emit
    | rewrite bind_userSockets_get
    | rewrite bind_userSockets_delete
    | match goal with H : _ = Some _ |- _ => rewrite H end
    | match goal with H : _ = None |- _ => rewrite H end
    | match goal with H : _ = true |- _ => rewrite H end
    | match goal with H : _ = false |- _ => rewrite H end ];
    simpl).

Ltac lookups :=
  repeat match goal with
  | |- context [userSockets ?w !! ?u] => destruct (userSockets w !! u); simpl
  end.

Ltac committed unfolding := right; subst; symmetry; unfolding; run_clean; lookups; done.
Ltac untouched := left; lookups; done.

Lemma on_message_send_atomic socket data : all_or_nothing (on_message_send socket data).
Proof.
  intros w. remember (db (exec (on_message_send socket data) (set_faults [] w))) as target.
  unfold exec, on_message_send, try_catch, message_send_try.
  await_split; [by left|].
  destruct (Contact_findOne _ _ _) eqn:Hc; simpl; [|by left].
  await_split; [by left|].
  await_split; committed ltac:(unfold on_message_send, message_send_try).
Qed.

Lemma on_message_edit_atomic socket data : all_or_nothing (on_message_edit socket data).
Proof.
  intros w. remember (db (exec (on_message_edit socket data) (set_faults [] w))) as target.
  unfold exec, on_message_edit, try_catch, message_edit_try.
  await_split; [by left|].
  destruct (Message_findById _ _) eqn:Hm; simpl; [|by left].
  destruct (bool_decide (sender _ ≠ _)) eqn:Hs; simpl; [by left|].
  destruct (bool_decide (type _ ≠ _)) eqn:Ht; simpl; [by left|].
  await_split; [by left|].
  await_split; committed ltac:(unfold on_message_edit, message_edit_try).
Qed.

Lemma on_message_reaction_atomic socket data : all_or_nothing (on_message_reaction socket data).
Proof.
  intros w. remember (db (exec (on_message_reaction socket data) (set_faults [] w))) as target.
  unfold exec, on_message_reaction, try_catch, message_reaction_try.
  await_split; [by left|].
  destruct (Message_findById _ _) eqn:Hm; simpl; [|by left].
  await_split; [by left|].
  await_split; committed ltac:(unfold on_message_reaction, message_reaction_try).
Qed.

Lemma on_message_read_atomic socket senderId : all_or_nothing (on_message_read socket senderId).
Proof.
  intros w. remember (db (exec (on_message_read socket senderId) (set_faults [] w))) as target.
  unfold exec, on_message_read, try_catch, message_read_try.
  await_split; [by left|].
  committed ltac:(unfold on_message_read, message_read_try).
Qed.

Lemma on_user_online_atomic socket : all_or_nothing (on_user_online socket).
Proof.
  intros w. remember (db (exec (on_user_online socket) (set_faults [] w))) as target.
  unfold exec, on_user_online, try_catch.
  await_split; [by left|].
  committed ltac:(unfold on_user_online).
Qed.

Lemma on_disconnect_atomic socket : all_or_nothing (on_disconnect socket).
Proof.
  intros w. remember (db (exec (on_disconnect socket) (set_faults [] w))) as target.
  unfold exec, on_disconnect, try_catch.
  destruct (bool_decide (_ ≠ _)) eqn:Hu; [|by left].
  await_split; [by left|].
  committed ltac:(unfold on_disconnect).
Qed.

Lemma getChatHistory_atomic a b : all_or_nothing (getChatHistory a b).
Proof.
  intros w. remember (db (exec (getChatHistory a b) (set_faults [] w))) as target.
  unfold exec, getChatHistory, try_catch.
  await_split; [by left|].
  destruct (Contact_findOne _ _ _) eqn:Hc; simpl; [|by left].
  await_split; [by left|].
  await_split; [by left|].
  committed ltac:(unfold getChatHistory).
Qed.

Lemma getUnreadCount_atomic u : all_or_nothing (getUnreadCount u).
Proof.
  intros w. left. unfold exec, getUnreadCount, try_catch.
  await_split; done.
Qed.

Lemma deleteMessage_atomic u i : all_or_nothing (deleteMessage u i).
Proof.
  intros w. remember (db (exec (deleteMessage u i) (set_faults [] w))) as target.
  unfold exec, deleteMessage, try_catch.
  await_split; [by left|].
  destruct (Message_findById _ _) eqn:Hm; simpl; [|by left].
  destruct (bool_decide (sender _ ≠ _)) eqn:Hs; simpl; [by left|].
  await_split; [by left|].
  committed ltac:(unfold deleteMessage).
Qed.

Lemma editMessage_atomic u i c : all_or_nothing (editMessage u i c).
Proof.
  intros w. remember (db (exec (editMessage u i c) (set_faults [] w))) as target.
  unfold exec, editMessage, try_catch.
  destruct (blank c) eqn:Hb; [by left|].
  await_split; [by left|].
  destruct (Message_findById _ _) eqn:Hm; simpl; [|by left].
  destruct (bool_decide (sender _ ≠ _)) eqn:Hs; simpl; [by left|].
  destruct (bool_decide (type _ ≠ _)) eqn:Ht; simpl; [by left|].
  await_split; [by left|].
  await_split; committed ltac:(unfold editMessage).
Qed.

Lemma toggleReaction_atomic u i e : all_or_nothing (toggleReaction u i e).
Proof.
  intros w. remember (db (exec (toggleReaction u i e) (set_faults [] w))) as target.
  unfold exec, toggleReaction, try_catch.
  destruct (no_emoji e) eqn:Hb; [by left|].
  await_split; [by left|].
  destruct (Message_findById _ _) eqn:Hm; simpl; [|by left].
  await_split; [by left|].
  await_split; committed ltac:(unfold toggleReaction).
Qed.

Lemma removeContact_atomic u c : all_or_nothing (removeContact u c).
Proof.
  intros w. remember (db (exec (removeContact u c) (set_faults [] w))) as target.
  unfold exec, removeContact, try_catch.
  await_split; [by left|].
  committed ltac:(unfold removeContact).
Qed.

Lemma logout_atomic u : all_or_nothing (logout u).
Proof.
  intros w. remember (db (exec (logout u) (set_faults [] w))) as target.
  unfold exec, logout, try_catch.
  await_split; [by left|].
  destruct (User_findById _ _) eqn:Hu; simpl; [|by left].
  await_split; [by left|].
  committed ltac:(unfold logout).
Qed.

Lemma serve_atomic (w : World) (r : Request) :
  db (serve w r) = db w \/ db (serve w r) = db (serve (set_faults [] w) r).
Proof.
  destruct r as [[]| | | | | |]; simpl.
  - by left.
  - apply (on_disconnect_atomic socket (set_sockets _ w)).
  - apply on_user_online_atomic.
  - apply on_message_send_atomic.
  - apply on_message_edit_atomic.
  - apply on_message_reaction_atomic.
  - apply on_message_read_atomic.
  - apply getChatHistory_atomic.
  - by left.
  - by left.
  - apply getUnreadCount_atomic.
  - apply deleteMessage_atomic.
  - apply editMessage_atomic.
  - apply toggleReaction_atomic.
  - apply removeContact_atomic.
  - apply logout_atomic.
Qed.

(** Whatever the store does, a request leaves the collections either as
    they were or exactly as if no store call had failed: no request makes
    more than one write. *)
Theorem request_all_or_nothing (w : World) (r : Request) :
  db (serve w r) = db w \/ db (serve w r) = db (serve (set_faults [] w) r).
Proof. apply serve_atomic. Qed.

(** ** The writes a request can make *)

Ltac run_to_write :=
  unfold exec, try_catch; run_callback;
  repeat (match goal with
          | |- context [match Contact_findOne ?a ?b ?d with _ => _ end] =>
              destruct (Contact_findOne a b d) eqn:?
          | |- context [match Message_findById ?i ?d with _ => _ end] =>
              let H := fresh "Hfound" in destruct (Message_findById i d) eqn:H
          | |- context [if bool_decide ?P then _ else _] =>
              let H := fresh "Hguard" in destruct (bool_decide P) eqn:H
          | |- context [match User_findById ?u ?d with _ => _ end] =>
              let H := fresh "Huser" in destruct (User_findById u d) eqn:H
          | |- context [if blank ?c then _ else _] => destruct (blank c)
          | |- context [if no_emoji ?c then _ else _] => destruct (no_emoji c)
          end; rewrite ?bind_assoc; run_callback);
  lookups.

Lemma step_clean_write (w : World) (e : ClientEvent) :
  faults w = [] -> socket_write (now w) (db w) (db (step w e)).
Proof.
  intros Hf. destruct e; simpl.
  - apply write_none.
  - unfold on_disconnect. run_to_write; simpl; [|apply write_none].
    exact (write_presence _ _ (data_userId socket) false (Some (now w))).
  - unfold on_user_online. run_to_write.
    exact (write_presence _ _ (data_userId socket) true None).
  - unfold on_message_send, message_send_try. run_to_write; simpl; try apply write_none.
    all: exact (write_create _ _
      {| d_sender := data_userId socket; d_receiver := receiverId data;
         d_content := send_content data; d_image := send_image data;
         d_audio := send_audio data; d_type := default Text (send_type data);
         d_isRead := false; d_replyTo := send_replyTo data |}).
  - unfold on_message_edit, message_edit_try. run_to_write; simpl; try apply write_none.
    all: pose proof (Message_findById_id _ _ _ Hfound) as Hid.
    all: apply bool_decide_eq_false in Hguard0.
    all: refine (write_edit _ _ i (edit_content data) _ _); [by rewrite Hid|].
    all: by destruct (decide (type i = Text)).
  - unfold on_message_reaction, message_reaction_try. run_to_write; simpl;
      try apply write_none.
    all: pose proof (Message_findById_id _ _ _ Hfound) as Hid.
    all: refine (write_reaction _ _ i (data_userId socket) (emoji data) _); by rewrite Hid.
  - unfold on_message_read, message_read_try. run_to_write; simpl.
    all: exact (write_read _ _ senderId (data_userId socket)).
  - unfold getChatHistory. run_to_write; simpl; try apply write_none.
    exact (write_read _ _ userId currentUserId).
  - apply write_none.
  - apply write_none.
Qed.

Lemma step_write (w : World) (e : ClientEvent) :
  socket_write (now w) (db w) (db (step w e)).
Proof.
  destruct (serve_atomic w (SocketEvent e)) as [H|H]; simpl in H; rewrite H.
  - apply write_none.
  - by apply (step_clean_write (set_faults [] w) e).
Qed.

Lemma serve_clean_write (w : World) (r : Request) :
  faults w = [] -> request_write (now w) (db w) (db (serve w r)).
Proof.
  intros Hf. destruct r as [ev|u|u i|u i c|u i e|u c|u]; simpl.
  - by apply write_socket, step_clean_write.
  - unfold getUnreadCount. run_to_write. apply write_socket, write_none.
  - unfold deleteMessage. run_to_write; simpl; try apply write_socket, write_none.
    pose proof (Message_findById_id _ _ _ Hfound) as Hid.
    refine (write_delete _ _ i0 _). by rewrite Hid.
  - unfold editMessage. run_to_write; simpl; try apply write_socket, write_none.
    pose proof (Message_findById_id _ _ _ Hfound) as Hid.
    apply bool_decide_eq_false in Hguard0. apply write_socket.
    refine (write_edit _ _ i0 (trim <$> c) _ _); [by rewrite Hid|].
    by destruct (decide (type i0 = Text)).
  - unfold toggleReaction. run_to_write; simpl; try apply write_socket, write_none.
    pose proof (Message_findById_id _ _ _ Hfound) as Hid. apply write_socket.
    refine (write_reaction _ _ i0 u (default "" e) _). by rewrite Hid.
  - unfold removeContact. run_to_write.
    exact (write_removeContact _ _ u c).
  - unfold logout. run_to_write; simpl; [|apply write_socket, write_none].
    apply write_socket.
    replace (<[u:={| name := name i; avatar := avatar i; isOnline := false;
                     lastSeen := Some (now w) |}]> (users (db w)))
      with (users (User_findByIdAndUpdate u false (Some (now w)) (db w)).2).
    { exact (write_presence _ _ u false (Some (now w))). }
    simpl. apply map_eq. intros v. rewrite lookup_alter, lookup_insert.
    unfold User_findById in Huser. case_decide; [subst; by rewrite Huser | done].
Qed.

(** Every request makes at most one write to the store, of one of these
    kinds, whatever the store's failures. *)
Lemma serve_write (w : World) (r : Request) :
  request_write (now w) (db w) (db (serve w r)).
Proof.
  destruct (serve_atomic w r) as [H|H]; rewrite H.
  - apply write_socket, write_none.
  - by apply (serve_clean_write (set_faults [] w) r).
Qed.

(** ** Invariants of the store *)

Lemma replace_doc_ids (m : IMessage) (l : list IMessage) :
  _id <$> replace_doc m l = _id <$> l.
Proof.
  induction l as [|x l IH]; [done|]. simpl. case_bool_decide as Hx.
  - rewrite !fmap_cons. by rewrite Hx.
  - rewrite !fmap_cons. by rewrite IH.
Qed.

Lemma remove_doc_sublist (i : MessageId) (l : list IMessage) : sublist (remove_doc i l) l.
Proof.
  induction l as [|x l IH]; [done|]. simpl. case_bool_decide.
  - by apply sublist_cons.
  - by apply sublist_skip.
Qed.

(** [store_wf] in terms of the identifiers alone. *)
Lemma store_wf_ids (d : Db) :
  store_wf d <-> Forall (fun i => i < nextId d) (_id <$> messages d) /\ NoDup (_id <$> messages d).
Proof. unfold store_wf. by rewrite Forall_fmap. Qed.

Lemma request_write_wf (t : Date) (d d' : Db) :
  request_write t d d' -> store_wf d -> store_wf d'.
Proof.
  intros Hw. rewrite !store_wf_ids. intros [Hlt Hnd].
  destruct Hw as [d' Hs|m Hm|a b]; [destruct Hs|..]; simpl.
  - done.
  - rewrite fmap_app. simpl. split.
    + apply Forall_app. split; [|by repeat constructor].
      eapply Forall_impl; [exact Hlt|]. simpl. lia.
    + apply NoDup_app. split; [done|]. split; [|apply NoDup_singleton].
      intros i Hi Hin. apply list_elem_of_singleton in Hin. subst i.
      rewrite Forall_forall in Hlt. specialize (Hlt _ Hi). lia.
  - by rewrite replace_doc_ids.
  - by rewrite replace_doc_ids.
  - rewrite <- list_fmap_compose.
    assert ((_id ∘ (fun m : IMessage => if unread_from s r m then set_isRead t m else m))
            <$> messages d = _id <$> messages d) as ->; [|done].
    apply list_fmap_ext. intros ? m' _. simpl. by destruct (unread_from s r m').
  - done.
  - pose proof (remove_doc_sublist (_id m) (messages d)) as Hsub.
    apply (fmap_sublist _id) in Hsub. split.
    + rewrite Forall_forall in *. intros i Hi. apply Hlt.
      by eapply elem_of_sublist.
    + by eapply sublist_NoDup.
  - done.
Qed.

(** Identifiers stay unique and below the generator's next one, whatever is
    requested and whatever fails. *)
Theorem store_wf_invariant (w : World) (l : list Request) :
  store_wf (db w) -> store_wf (db (serve_all w l)).
Proof.
  revert w. induction l as [|r l IH]; intros w Hwf; [done|].
  simpl. apply IH. eapply request_write_wf; [apply serve_write | done].
Qed.

(** ** What never happens to a stored message *)

Lemma evolves_refl (m : IMessage) : evolves m m.
Proof. by repeat split. Qed.

Lemma evolves_trans (m1 m2 m3 : IMessage) : evolves m1 m2 -> evolves m2 m3 -> evolves m1 m3.
Proof.
  unfold evolves. intros (?&?&?&Ht&?&?&?&?&?&?&?) (?&?&?&?&?&?&?&?&?&?&Hc).
  repeat split; try congruence; try tauto.
  intros Hne. rewrite Hc; [tauto | congruence].
Qed.

Lemma persists_refl (d : Db) : persists d d.
Proof. intros i m Hm. exists m. split; [done | apply evolves_refl]. Qed.

Lemma persists_trans (d1 d2 d3 : Db) : persists d1 d2 -> persists d2 d3 -> persists d1 d3.
Proof.
  intros H12 H23 i m Hm. destruct (H12 i m Hm) as (m2 & Hm2 & He2).
  destruct (H23 i m2 Hm2) as (m3 & Hm3 & He3).
  exists m3. split; [done|]. by eapply evolves_trans.
Qed.

(** Saving a document that evolved from the stored one keeps every stored
    message, evolved. *)
Lemma save_persists (m m' : IMessage) (t : Date) (d : Db) :
  Message_findById (_id m) d = Some m ->
  evolves m (touch t m') ->
  persists d (Message_save m' t d).2.
Proof.
  intros Hm He i x Hx. unfold Message_findById in *. simpl.
  assert (_id (touch t m') = _id m) as Hid by apply He.
  destruct (decide (i = _id m)) as [->|Hne].
  - exists (touch t m'). rewrite Hm in Hx. injection Hx as <-. split; [|done].
    by apply (find_replace_doc _ m).
  - exists x. split; [|apply evolves_refl].
    rewrite find_replace_doc_ne; [done | congruence].
Qed.

Lemma socket_write_persists (t : Date) (d d' : Db) : socket_write t d d' -> persists d d'.
Proof.
  intros [|data|m c Hm Ht|m u e Hm|s r|u o seen].
  - apply persists_refl.
  - intros i m Hm. exists m. split; [|apply evolves_refl].
    unfold Message_findById in *. simpl. by rewrite find_append, Hm.
  - apply (save_persists m); [done|]. unfold evolves. simpl. repeat split; try done.
  - apply (save_persists m); [done|]. unfold evolves. simpl. by repeat split.
  - intros i m Hm. rewrite updateMany_read_findById, Hm. simpl. eexists. split; [done|].
    destruct (unread_from s r m); [|apply evolves_refl]. unfold evolves. simpl.
    by repeat split.
  - intros i m Hm. exists m. split; [done | apply evolves_refl].
Qed.

(** No socket event and no history request ever removes a stored message,
    re-addresses or re-dates it, changes its kind, its reply target or its
    media, resets its read or edited flag, or changes the content of a
    message that is not text: whatever the trace and the store's failures,
    every message is still found under its identifier, evolved. *)
Theorem messages_persist (w : World) (l : list ClientEvent) :
  persists (db w) (db (run w l)).
Proof.
  revert w. induction l as [|e l IH]; intros w; [apply persists_refl|].
  simpl. eapply persists_trans; [|apply IH].
  eapply socket_write_persists, step_write.
Qed.

(** ** What the socket layer never touches *)

Lemma socket_write_frame (t : Date) (d d' : Db) :
  socket_write t d d' ->
  contacts d' = contacts d
  /\ nextId d <= nextId d'
  /\ length (messages d) <= length (messages d')
  /\ (forall u, (name <$> users d' !! u) = (name <$> users d !! u)
                /\ (avatar <$> users d' !! u) = (avatar <$> users d !! u)).
Proof.
  assert (forall l : list IMessage, length l <= length l) as Hle by (intros; lia).
  assert (forall (m : IMessage) l, length (replace_doc m l) = length l) as Hrep.
  { intros m l. induction l as [|x l IH]; [done|]. simpl. case_bool_decide; simpl; lia. }
  intros [|data|m c Hm Ht|m u e Hm|s r|u o seen]; simpl; repeat split; try done.
  - lia.
  - rewrite length_app. simpl. lia.
  - by rewrite Hrep.
  - by rewrite Hrep.
  - by rewrite length_fmap.
  - rewrite lookup_alter. case_decide; [subst|done]. by destruct (users d !! u0).
  - rewrite lookup_alter. case_decide; [subst|done]. by destruct (users d !! u0).
Qed.

(** No socket event and no history request creates or removes a contact
    edge or a user, renames a user or changes an avatar, or lowers the
    number of stored messages. *)
Theorem socket_layer_frame (w : World) (l : list ClientEvent) :
  contacts (db (run w l)) = contacts (db w)
  /\ length (messages (db w)) <= length (messages (db (run w l)))
  /\ (forall u, (name <$> users (db (run w l)) !! u) = (name <$> users (db w) !! u)
                /\ (avatar <$> users (db (run w l)) !! u) = (avatar <$> users (db w) !! u)).
Proof.
  revert w. induction l as [|e l IH]; intros w; [done|]. simpl.
  destruct (IH (step w e)) as (Hc & Hl & Hu).
  destruct (socket_write_frame _ _ _ (step_write w e)) as (Hc' & _ & Hl' & Hu').
  rewrite Hc, Hc'. split; [done|]. split; [lia|].
  intros u. destruct (Hu u) as [-> ->]. apply Hu'.
Qed.

(** ** Chat history, again *)

Lemma insert_by_createdAt_sorted (m : PopulatedMessage) (l : list PopulatedMessage) :
  oldest_first l -> oldest_first (insert_by_createdAt m l).
Proof.
  unfold oldest_first. induction l as [|x l IH]; intros Hs; simpl.
  - by repeat constructor.
  - destruct (createdAt (doc m) <=? createdAt (doc x))%nat eqn:Hle.
    + apply Nat.leb_le in Hle. constructor; [done|]. by constructor.
    + apply Nat.leb_gt in Hle. apply Sorted_inv in Hs as [Hs Hhd].
      constructor; [by apply IH|].
      destruct l as [|y l]; simpl.
      * constructor. lia.
      * destruct (createdAt (doc m) <=? createdAt (doc y))%nat; constructor; [lia|].
        by apply HdRel_inv in Hhd.
Qed.

Lemma insert_by_createdAt_perm (m : PopulatedMessage) (l : list PopulatedMessage) :
  insert_by_createdAt m l ≡ₚ m :: l.
Proof.
  induction l as [|x l IH]; simpl; [done|].
  destruct (createdAt (doc m) <=? createdAt (doc x))%nat; [done|].
  rewrite IH. apply Permutation_swap.
Qed.

Lemma sort_by_createdAt_sorted (l : list PopulatedMessage) : oldest_first (sort_by_createdAt l).
Proof.
  induction l as [|x l IH]; simpl; [constructor|]. by apply insert_by_createdAt_sorted.
Qed.

Lemma sort_by_createdAt_perm (l : list PopulatedMessage) : sort_by_createdAt l ≡ₚ l.
Proof.
  induction l as [|x l IH]; simpl; [done|]. by rewrite insert_by_createdAt_perm, IH.
Qed.

Lemma between_sym (a b : UserId) (m : IMessage) : between a b m = between b a m.
Proof. unfold between. apply orb_comm. Qed.

(** The history a contact gets is the conversation: the stored messages
    between the two users in either direction, each once, oldest first;
    nothing else is in it, and the other party asking gets the same list. *)
Theorem history_is_the_conversation (a b : UserId) (w : World) :
  faults w = [] ->
  is_Some (Contact_findOne a b (db w)) ->
  exists found,
    (getChatHistory a b w).1
      = Return (sendSuccess 200 "Chat history fetched successfully" found)
    /\ oldest_first found
    /\ found ≡ₚ populate false (db w) <$> List.filter (between a b) (messages (db w))
    /\ (forall pm, pm ∈ found ->
          (sender (doc pm) = a /\ receiver (doc pm) = b)
          \/ (sender (doc pm) = b /\ receiver (doc pm) = a))
    /\ found = Message_find_between b a (db w).
Proof.
  intros Hf Hc. destruct (getChatHistory_ok a b w Hf Hc) as (Hret & _ & _).
  eexists. split; [exact Hret|]. unfold Message_find_between.
  split; [apply sort_by_createdAt_sorted|]. split; [apply sort_by_createdAt_perm|]. split.
  - intros pm Hpm. rewrite sort_by_createdAt_perm in Hpm.
    apply list_elem_of_fmap in Hpm as (m & -> & Hm). simpl.
    apply list_elem_of_In, filter_In in Hm as [_ Hm]. unfold between in Hm.
    apply orb_true_iff in Hm as [Hm|Hm]; apply andb_true_iff in Hm as [H1 H2];
      apply bool_decide_eq_true in H1, H2; tauto.
  - f_equal. f_equal. apply filter_ext. intros m. apply between_sym.
Qed.

Lemma getChatHistory_refused (a b : UserId) (w : World) :
  faults w = [] ->
  Contact_findOne a b (db w) = None ->
  (getChatHistory a b w).1
    = Return (sendError 403 "You can only view messages from your contacts")
  /\ db (exec (getChatHistory a b) w) = db w
  /\ outbox (exec (getChatHistory a b) w) = outbox w.
Proof.
  intros Hf Hc. unfold exec, getChatHistory, try_catch. run_callback. by rewrite Hc.
Qed.

(** Without a contact edge from the caller to the other user the history is
    refused with 403, and nothing is marked read or emitted. *)
Theorem history_refused_without_contact (a b : UserId) (w : World) :
  faults w = [] ->
  Contact_findOne a b (db w) = None ->
  (getChatHistory a b w).1
    = Return (sendError 403 "You can only view messages from your contacts")
  /\ db (exec (getChatHistory a b) w) = db w
  /\ outbox (exec (getChatHistory a b) w) = outbox w.
Proof. apply getChatHistory_refused. Qed.

(** ** The unread counter *)

Lemma getUnreadCount_ok (u : UserId) (w : World) :
  faults w = [] ->
  getUnreadCount u w
  = (Return (Http.sendSuccess 200 "Unread count fetched"
               (Some (Message_countDocuments_unread u (db w)))),
     set_db (db w) w).
Proof. intros Hf. unfold getUnreadCount, try_catch. by run_callback. Qed.

(** A delivered send raises the receiver's unread count by one and nobody
    else's. *)
Theorem send_raises_unread_count (socket : Socket) (data : SendData) (w : World) (u : UserId) :
  faults w = [] ->
  is_Some (Contact_findOne (data_userId socket) (receiverId data) (db w)) ->
  let w' := exec (on_message_send socket data) w in
  (getUnreadCount u w').1
  = Return (Http.sendSuccess 200 "Unread count fetched"
              (Some (Message_countDocuments_unread u (db w)
                     + if bool_decide (receiverId data = u) then 1 else 0))).
Proof.
  intros Hf Hc w'.
  destruct (message_send_ok socket data w Hf Hc) as (Hm & _ & _ & Ho). fold w' in Hm.
  assert (faults w' = []) as Hf'.
  { subst w'. unfold exec, on_message_send, try_catch, message_send_try.
    destruct Hc as [c Hc]. run_callback. rewrite Hc. run_callback. by lookups. }
  rewrite (getUnreadCount_ok u w' Hf'). simpl. do 3 f_equal.
  unfold Message_countDocuments_unread. rewrite Hm.
  rewrite List.filter_app, length_app. f_equal. simpl.
  by case_bool_decide.
Qed.

Lemma length_filter_fmap {A} (P Q : A -> bool) (f : A -> A) (l : list A) :
  (forall x, P (f x) = Q x) ->
  length (List.filter P (f <$> l)) = length (List.filter Q l).
Proof.
  intros H. induction l as [|x l IH]; [done|]. rewrite fmap_cons. cbn [List.filter].
  rewrite H. destruct (Q x); simpl; by rewrite IH.
Qed.

Lemma unread_after_read (s b u : UserId) (t : Date) (m : IMessage) :
  let m' := if unread_from s b m then set_isRead t m else m in
  bool_decide (receiver m' = u) && negb (isRead m')
  = if bool_decide (u = b) then
      bool_decide (receiver m = b) && negb (isRead m) && negb (bool_decide (sender m = s))
    else bool_decide (receiver m = u) && negb (isRead m).
Proof.
  unfold unread_from. destruct (isRead m) eqn:Hr;
    repeat case_bool_decide; simpl; rewrite ?Hr; simpl;
    repeat case_bool_decide; simpl in *; try done; congruence.
Qed.

(** After a ['message:read'] for sender A, the reader's unread count is the
    number of unread messages from everyone else, and nobody else's count
    moves. *)
Theorem markRead_lowers_unread_count (socket : Socket) (senderId : UserId) (w : World)
    (u : UserId) :
  faults w = [] ->
  let b := data_userId socket in
  let w' := exec (on_message_read socket senderId) w in
  Message_countDocuments_unread u (db w')
  = if bool_decide (u = b) then
      length (List.filter (fun m => bool_decide (receiver m = b) && negb (isRead m)
                                    && negb (bool_decide (sender m = senderId)))
                (messages (db w)))
    else Message_countDocuments_unread u (db w).
Proof.
  intros Hf b w'.
  destruct (message_read_ok socket senderId w Hf) as (_ & Hdb & _ & _).
  fold w' b in Hdb. rewrite Hdb. unfold Message_countDocuments_unread. simpl.
  case_bool_decide as Hu; apply length_filter_fmap; intros m;
    rewrite (unread_after_read senderId b u (now w) m).
  - by rewrite bool_decide_eq_true_2.
  - by rewrite bool_decide_eq_false_2.
Qed.

(** ** Deleting *)

Lemma find_remove_doc_ne (i j : MessageId) (l : list IMessage) :
  j ≠ i ->
  find (fun x => bool_decide (_id x = j)) (remove_doc i l)
  = find (fun x => bool_decide (_id x = j)) l.
Proof.
  intros Hne. induction l as [|x l IH]; [done|]. simpl.
  case_bool_decide as Hx; simpl.
  - by rewrite bool_decide_eq_false_2 by congruence.
  - by rewrite IH.
Qed.

Lemma find_remove_doc_eq (i : MessageId) (l : list IMessage) :
  NoDup (_id <$> l) ->
  find (fun x => bool_decide (_id x = i)) (remove_doc i l) = None.
Proof.
  induction l as [|x l IH]; intros Hnd; [done|]. rewrite fmap_cons in Hnd.
  apply NoDup_cons in Hnd as [Hx Hnd]. simpl. case_bool_decide as Hi; simpl.
  - apply find_id_None. by rewrite <- Hi.
  - rewrite bool_decide_eq_false_2 by done. by apply IH.
Qed.

(** What a delete that goes through leaves behind. *)
Lemma deleteMessage_ok (u : UserId) (i : MessageId) (w : World) (m : IMessage) :
  faults w = [] ->
  Message_findById i (db w) = Some m ->
  sender m = u ->
  deleteMessage u i w
  = (Return (Http.sendSuccess 200 "Message deleted successfully" None),
     set_db (Message_deleteOne m (db w)).2 (set_db (db w) w)).
Proof.
  intros Hf Hm Hs. unfold deleteMessage, try_catch. run_callback. rewrite Hm. simpl.
  rewrite bool_decide_eq_false_2 by (intros H; by apply H). by run_callback.
Qed.

(** [deleteMessage] answers 404 for a message that does not exist and 403
    for anyone but its sender, changing nothing; for the sender it removes
    that message and no other.  Nothing is emitted: the other party's
    socket is not told. *)
Theorem deleteMessage_only_by_sender (u : UserId) (i : MessageId) (w : World) :
  faults w = [] ->
  store_wf (db w) ->
  let w' := exec (deleteMessage u i) w in
  outbox w' = outbox w
  /\ (Message_findById i (db w) = None ->
      (deleteMessage u i w).1 = Return (Http.sendError 404 "Message not found")
      /\ db w' = db w)
  /\ (forall m, Message_findById i (db w) = Some m -> sender m ≠ u ->
      (deleteMessage u i w).1
        = Return (Http.sendError 403 "Not authorized to delete this message")
      /\ db w' = db w)
  /\ (forall m, Message_findById i (db w) = Some m -> sender m = u ->
      (deleteMessage u i w).1
        = Return (Http.sendSuccess 200 "Message deleted successfully" None)
      /\ Message_findById i (db w') = None
      /\ (forall j, j ≠ i -> Message_findById j (db w') = Message_findById j (db w))
      /\ length (messages (db w)) = S (length (messages (db w')))).
Proof.
  intros Hf [_ Hnd] w'. subst w'. split; [|split; [|split]].
  - unfold exec, deleteMessage, try_catch. run_callback.
    destruct (Message_findById i (db w)); simpl; [|done].
    case_bool_decide; simpl; [done|]. by run_callback.
  - intros Hm. unfold exec, deleteMessage, try_catch. run_callback. by rewrite Hm.
  - intros m Hm Hs. unfold exec, deleteMessage, try_catch. run_callback. rewrite Hm. simpl.
    by rewrite bool_decide_eq_true_2.
  - intros m Hm Hs. unfold exec. rewrite (deleteMessage_ok u i w m Hf Hm Hs). simpl.
    pose proof (Message_findById_id _ _ _ Hm) as Hid. rewrite Hid.
    split; [done|]. unfold Message_findById. simpl.
    split; [by apply find_remove_doc_eq|]. split.
    + intros j Hj. by apply find_remove_doc_ne.
    + unfold Message_findById in Hm. clear Hnd Hid.
      induction (messages (db w)) as [|x l IH]; [done|]. simpl in *.
      case_bool_decide; simpl; [done|]. f_equal. by apply IH.
Qed.

(** Deleting a message other messages reply to leaves those replies in
    place, [replyTo] still naming the deleted message; from then on they are
    populated with no reply at all. *)
Theorem delete_leaves_replies_dangling (u : UserId) (i : MessageId) (w : World)
    (m r : IMessage) :
  faults w = [] ->
  store_wf (db w) ->
  Message_findById i (db w) = Some m ->
  sender m = u ->
  Message_findById (_id r) (db w) = Some r ->
  replyTo r = Some i ->
  _id r ≠ i ->
  let w' := exec (deleteMessage u i) w in
  Message_findById (_id r) (db w') = Some r
  /\ p_replyTo (populate true (db w') r) = None
  /\ p_replyTo (populate false (db w') r) = None.
Proof.
  intros Hf [_ Hnd] Hm Hs Hr Hreply Hne w'. subst w'. unfold exec.
  rewrite (deleteMessage_ok u i w m Hf Hm Hs). simpl.
  pose proof (Message_findById_id _ _ _ Hm) as Hid. rewrite Hid.
  assert (Message_findById i
            {| users := users (db w); contacts := contacts (db w);
               messages := remove_doc i (messages (db w)); nextId := nextId (db w) |} = None)
    as Hgone by (by apply find_remove_doc_eq).
  split; [|split].
  - unfold Message_findById in *. simpl. by rewrite find_remove_doc_ne.
  - unfold populate, populate_reply. simpl. by rewrite Hreply; simpl; rewrite Hgone.
  - unfold populate, populate_reply. simpl. by rewrite Hreply; simpl; rewrite Hgone.
Qed.

(** ** The controller's edit and reaction beside the socket's *)


(** The HTTP toggle refuses a missing or empty emoji with 400; otherwise it
    does to the store what the socket toggle does, and emits nothing. *)
Theorem toggleReaction_beside_socket (socket : Socket) (i : MessageId) (e : option string)
    (w : World) :
  faults w = [] ->
  let u := data_userId socket in
  outbox (exec (toggleReaction u i e) w) = outbox w
  /\ (no_emoji e = true ->
      (toggleReaction u i e w).1 = Return (Http.sendError 400 "Emoji is required")
      /\ db (exec (toggleReaction u i e) w) = db w)
  /\ (forall s, e = Some s -> s ≠ "" ->
      db (exec (toggleReaction u i e) w)
      = db (exec (on_message_reaction socket {| messageId := i; emoji := s |}) w)).
Proof.
  intros Hf u. subst u. split; [|split].
  - unfold exec, toggleReaction, try_catch. destruct (no_emoji e); [done|]. run_callback.
    destruct (Message_findById i (db w)); simpl; [|done]. by run_callback.
  - intros Hb. unfold exec, toggleReaction, try_catch. by rewrite Hb.
  - intros s -> Hs.
    unfold exec, toggleReaction, on_message_reaction, message_reaction_try, try_catch.
    simpl. rewrite bool_decide_eq_false_2 by done.
    run_callback. destruct (Message_findById i (db w)); simpl; [|done].
    run_callback. by lookups.
Qed.

(** ** Removing a contact *)

Lemma find_filter_None {A} (f g : A -> bool) (l : list A) :
  (forall x, f x = true -> g x = false) -> find f (List.filter g l) = None.
Proof.
  intros H. induction l as [|x l IH]; [done|]. simpl. destruct (g x) eqn:Hg; [|done].
  simpl. destruct (f x) eqn:Hfx; [|done]. apply H in Hfx. congruence.
Qed.

Lemma find_filter_same {A} (f g : A -> bool) (l : list A) :
  (forall x, f x = true -> g x = true) -> find f (List.filter g l) = find f l.
Proof.
  intros H. induction l as [|x l IH]; [done|]. simpl. destruct (f x) eqn:Hfx.
  - rewrite (H x Hfx). simpl. by rewrite Hfx.
  - destruct (g x); simpl; by rewrite ?Hfx.
Qed.

(** [removeContact] takes out the edge in both directions and always
    answers 200, also when there was none; every other edge and every
    message stays.  From then on neither of the two can send to the other or
    fetch the history with the other. *)
Theorem removeContact_ends_conversation (a b : UserId) (w : World) :
  faults w = [] ->
  let w' := exec (removeContact a b) w in
  (removeContact a b w).1 = Return (Http.sendSuccess 200 "Contact removed successfully" None)
  /\ Contact_findOne a b (db w') = None
  /\ Contact_findOne b a (db w') = None
  /\ (forall x y, (x, y) ≠ (a, b) -> (x, y) ≠ (b, a) ->
        Contact_findOne x y (db w') = Contact_findOne x y (db w))
  /\ messages (db w') = messages (db w)
  /\ (forall socket data,
        (data_userId socket = a /\ receiverId data = b)
        \/ (data_userId socket = b /\ receiverId data = a) ->
        db (exec (on_message_send socket data) w') = db w'
        /\ outbox (exec (on_message_send socket data) w')
           = outbox w' ++ [(socket_id socket,
                            message_error "Can only send messages to contacts")])
  /\ (getChatHistory a b w').1
       = Return (sendError 403 "You can only view messages from your contacts")
  /\ (getChatHistory b a w').1
       = Return (sendError 403 "You can only view messages from your contacts").
Proof.
  intros Hf w'.
  assert (w' = set_db (Contact_deleteMany_between a b (db w)).2 w) as Hw'.
  { subst w'. unfold exec, removeContact, try_catch. by run_callback. }
  assert (faults w' = []) as Hf' by (by rewrite Hw').
  assert (Contact_findOne a b (db w') = None) as Hab.
  { rewrite Hw'. unfold Contact_findOne. simpl. apply find_filter_None.
    intros k Hk. by rewrite Hk. }
  assert (Contact_findOne b a (db w') = None) as Hba.
  { rewrite Hw'. unfold Contact_findOne. simpl. apply find_filter_None.
    intros k Hk. rewrite Hk. by rewrite orb_true_r. }
  split; [subst w'; unfold removeContact, try_catch; by run_callback|].
  split; [done|]. split; [done|]. split; [|split; [by rewrite Hw'|split; [|split]]].
  - intros x y Hxy Hyx. rewrite Hw'. unfold Contact_findOne. simpl.
    apply find_filter_same. intros k Hk. apply bool_decide_eq_true in Hk as [<- <-].
    rewrite !bool_decide_eq_false_2; [done| |]; intros [? ?]; congruence.
  - intros socket data Hends.
    assert (Contact_findOne (data_userId socket) (receiverId data) (db w') = None) as Hnone.
    { by destruct Hends as [[-> ->]|[-> ->]]. }
    unfold exec, on_message_send, try_catch, message_send_try. run_callback.
    by rewrite Hnone.
  - by apply getChatHistory_refused.
  - by apply getChatHistory_refused.
Qed.

(** ** Presence, again *)

(** The disconnect of an authenticated socket, the store answering, marks
    its user offline with the time as last-seen, leaves every other user and
    every message as they were, and tells every other connected socket. *)
Theorem disconnect_marks_offline (s : Socket) (w : World) :
  faults w = [] ->
  data_userId s ≠ "" ->
  let u := data_userId s in
  let w' := exec (on_disconnect s) w in
  users (db w') !! u
    = (fun x => {| name := name x; avatar := avatar x; isOnline := false;
                   lastSeen := Some (now w) |}) <$> users (db w) !! u
  /\ (forall v, v ≠ u -> users (db w') !! v = users (db w) !! v)
  /\ messages (db w') = messages (db w)
  /\ contacts (db w') = contacts (db w)
  /\ outbox w' =
       outbox w ++ ((fun t => (t, user_status u false)) <$> broadcast_targets s (sockets w)).
Proof.
  intros Hf Hu u w'. destruct (on_disconnect_ok s w Hf Hu) as (_ & _ & Hdb & Ho).
  fold w' u in Hdb, Ho. rewrite Hdb, Ho. simpl. repeat split.
  - by rewrite lookup_alter_eq.
  - intros v Hv. by rewrite lookup_alter_ne.
Qed.

(** When the store rejects the update of a disconnect, nothing else of the
    disconnect happens: the user stays online in the store, nobody is told,
    and the registry keeps the handle of the socket that is gone, so a later
    send to that user is still pushed to it. *)
Theorem failed_disconnect_leaves_stale_handle (s : Socket) (w : World) (e : string)
    (sender_socket : Socket) (data : SendData) :
  faults w = [Some e] ->
  data_userId s ≠ "" ->
  userSockets w !! data_userId s = Some (socket_id s) ->
  receiverId data = data_userId s ->
  is_Some (Contact_findOne (data_userId sender_socket) (receiverId data) (db w)) ->
  let w' := step w (Disconnect s) in
  let w'' := step w' (MessageSend sender_socket data) in
  db w' = db w
  /\ outbox w' = outbox w
  /\ userSockets w' !! data_userId s = Some (socket_id s)
  /\ (forall x, x ∈ sockets w' -> socket_id x ≠ socket_id s)
  /\ exists pm, outbox w'' =
       outbox w ++ [(socket_id sender_socket, message_sent pm);
                    (socket_id s, message_receive pm)].
Proof.
  intros Hf Hu Hh Hr Hc w' w''.
  assert (w' = set_faults [] (set_sockets
                (filter (fun x => socket_id x ≠ socket_id s) (sockets w)) w)) as Hw'.
  { subst w'. simpl. unfold exec, on_disconnect, try_catch.
    rewrite bool_decide_eq_true_2 by done.
    rewrite bind_new_Date, bind_eq. unfold await. simpl. by rewrite Hf. }
  assert (faults w' = []) as Hf' by (by rewrite Hw').
  assert (db w' = db w) as Hdb by (by rewrite Hw').
  split; [done|]. split; [by rewrite Hw'|]. split; [by rewrite Hw'|]. split.
  - rewrite Hw'. simpl. intros x Hx. by apply list_elem_of_filter in Hx as [Hx _].
  - rewrite <- Hdb in Hc.
    destruct (message_send_ok sender_socket data w' Hf' Hc) as (_ & _ & _ & Ho).
    eexists. subst w''. simpl. rewrite Ho. rewrite Hr.
    replace (userSockets w' !! data_userId s) with (Some (socket_id s)) by (by rewrite Hw').
    by rewrite Hw'.
Qed.

(** Connect, announce, disconnect, the store answering throughout: the user
    ends offline in the store with last-seen set, with no handle in the
    registry, the socket no longer among the connected ones, and every
    other connected socket told online and then offline. *)
Theorem presence_round_trip (s : Socket) (w : World) :
  faults w = [] ->
  data_userId s ≠ "" ->
  let u := data_userId s in
  let w' := run w [Connection s; UserOnline s; Disconnect s] in
  userSockets w' = delete u (userSockets w)
  /\ users (db w') !! u
     = (fun x => {| name := name x; avatar := avatar x; isOnline := false;
                    lastSeen := Some (now w) |}) <$> users (db w) !! u
  /\ (forall x, x ∈ sockets w' <-> x ∈ sockets w /\ socket_id x ≠ socket_id s)
  /\ outbox w' =
       outbox w
       ++ ((fun t => (t, user_status u true)) <$> broadcast_targets s (sockets w))
       ++ ((fun t => (t, user_status u false)) <$> broadcast_targets s (sockets w)).
Proof.
  intros Hf Hu u w'. subst w'. simpl.
  set (w1 := exec (on_connection s) (set_sockets (sockets w ++ [s]) w)).
  assert (faults w1 = [] /\ db w1 = db w /\ outbox w1 = outbox w
          /\ sockets w1 = sockets w ++ [s] /\ now w1 = now w
          /\ userSockets w1 = <[u := socket_id s]> (userSockets w))
    as (Hf1 & Hd1 & Ho1 & Hs1 & Hn1 & Hu1) by done.
  set (w2 := exec (on_user_online s) w1).
  destruct (on_user_online_ok s w1 Hf1) as (Hd2 & Hu2 & Ho2). fold w2 in Hd2, Hu2, Ho2.
  assert (faults w2 = [] /\ sockets w2 = sockets w1 /\ now w2 = now w1) as (Hf2 & Hs2 & Hn2).
  { subst w2. unfold exec, on_user_online, try_catch. by run_callback. }
  set (w3pre := set_sockets (filter (fun x => socket_id x ≠ socket_id s) (sockets w2)) w2).
  destruct (on_disconnect_ok s w3pre Hf2 Hu) as (_ & Hu3 & Hd3 & Ho3).
  assert (sockets (exec (on_disconnect s) w3pre) = sockets w3pre) as Hs3.
  { unfold exec, on_disconnect, try_catch. rewrite bool_decide_eq_true_2 by done.
    by run_callback. }
  assert (filter (fun x => socket_id x ≠ socket_id s) (sockets w ++ [s])
          = filter (fun x => socket_id x ≠ socket_id s) (sockets w)) as Hfil.
  { rewrite filter_app, (filter_cons_False _ s) by (intros H; by apply H).
    by rewrite filter_nil, app_nil_r. }
  split; [|split; [|split]].
  - rewrite Hu3. simpl. rewrite Hu2, Hu1. fold u. by rewrite delete_insert_eq.
  - rewrite Hd3. simpl. rewrite Hd2, Hn2, Hn1. simpl. rewrite ?Hd1. fold u.
    rewrite !lookup_alter_eq. by destruct (users (db w) !! u).
  - intros x. rewrite Hs3. simpl. rewrite Hs2, Hs1, Hfil, list_elem_of_filter. tauto.
  - rewrite Ho3. simpl. rewrite Ho2, Ho1, Hs2, Hs1. fold u. rewrite <- app_assoc.
    unfold broadcast_targets. rewrite Hfil.
    by rewrite list_filter_filter_l by done.
Qed.

(** ** Who writes the registry, and who emits *)



(** ** Logging out *)

(** [logout] does to the store what the disconnect of the user's socket
    does, and answers 200 also for a user who is gone; but it leaves the
    registry and the connected sockets alone and tells nobody: a user who
    logs out with the socket still open stays reachable by pushes. *)
Theorem logout_beside_disconnect (s : Socket) (w : World) :
  faults w = [] ->
  data_userId s ≠ "" ->
  let u := data_userId s in
  (logout u w).1 = Return (Http.sendSuccess 200 "Logout successful" None)
  /\ db (exec (logout u) w) = db (exec (on_disconnect s) w)
  /\ userSockets (exec (logout u) w) = userSockets w
  /\ outbox (exec (logout u) w) = outbox w.
Proof.
  intros Hf Hu u. destruct (on_disconnect_ok s w Hf Hu) as (_ & _ & Hdb & _).
  rewrite Hdb. subst u. unfold exec, logout, try_catch. run_callback.
  unfold User_findById.
  destruct (users (db w) !! data_userId s) as [x|] eqn:Hx; simpl;
    rewrite ?bind_assoc; run_callback; repeat split.
  - destruct (db w) as [us cs ms n]. simpl in *. f_equal. apply map_eq. intros v.
    rewrite lookup_alter, lookup_insert. case_decide; [subst; by rewrite Hx | done].
  - destruct (db w) as [us cs ms n]. simpl in *. f_equal. apply map_eq. intros v.
    rewrite lookup_alter. case_decide; [subst; by rewrite Hx | done].
Qed.

(** ** The properties at work on the sample worlds *)

Ltac sample_wf := unfold store_wf; apply (bool_decide_unpack _); by vm_compute.
Ltac sample_contact := vm_compute; by eexists.

Lemma send_delivers_witness :
  let w' := exec (on_message_send sA hi) a_online in
  exists m,
    messages (db w') = messages (db a_online) ++ [m]
    /\ Message_findById (_id m) (db w') = Some m
    /\ Message_findById (_id m) (db a_online) = None
    /\ sender m = data_userId sA /\ receiver m = receiverId hi
    /\ isRead m = false /\ isEdited m = false /\ reactions m = []
    /\ type m = default Text (send_type hi)
    /\ outbox w' =
         outbox a_online ++ (socket_id sA, message_sent (Some (populate true (db w') m))) ::
           match userSockets a_online !! receiverId hi with
           | Some sid => [(sid, message_receive (Some (populate true (db w') m)))]
           | None => []
           end.
Proof.
  apply (send_delivers sA hi a_online); [reflexivity | sample_wf | sample_contact].
Defined.

Lemma send_stored_but_reported_failed_witness :
  let w' := exec (on_message_send sA hi) flaky in
  (exists m, messages (db w') = messages (db flaky) ++ [m]
     /\ sender m = data_userId sA /\ receiver m = receiverId hi /\ isRead m = false)
  /\ outbox w' = outbox flaky ++ [(socket_id sA, message_error "read failed")].
Proof.
  apply (send_stored_but_reported_failed sA hi flaky "read failed" []);
    [reflexivity | sample_contact].
Defined.


(** The edit reaches B's socket, trimmed. *)
Example edit_reaches_receiver :
  exists pm, outbox (exec (on_message_edit sA see_you_at_9) note_world)
             = [("sA", message_edited (Some pm)); ("sB", message_edited (Some pm))]
             /\ content (doc pm) = Some "see you at 9" /\ isEdited (doc pm) = true.
Proof. vm_compute. by eexists. Qed.


Lemma markRead_marks_all_witness :
  let b := data_userId sB in
  let w' := exec (on_message_read sB "A") note_world in
  List.filter (unread_from "A" b) (messages (db w')) = []
  /\ (forall i, Message_findById i (db w')
        = (fun m => if unread_from "A" b m then set_isRead (now note_world) m else m)
            <$> Message_findById i (db note_world))
  /\ (forall i m, Message_findById i (db note_world) = Some m -> isRead m = true ->
        Message_findById i (db w') = Some m)
  /\ outbox w' =
       outbox note_world ++
         match userSockets note_world !! "A" with
         | Some sid => [(sid, message_read b)]
         | None => []
         end.
Proof. apply (markRead_marks_all sB "A" note_world). reflexivity. Defined.

Lemma store_failure_reported_witness :
  outbox (exec (on_message_send sA hi) store_down)
  = outbox store_down ++ [(socket_id sA, message_error "connection lost")].
Proof.
  apply (proj1 (store_failure_reported sA store_down (set_faults [] store_down)
                  "connection lost") hi).
  reflexivity.
Defined.

Lemma request_all_or_nothing_witness :
  db (serve flaky (SocketEvent (MessageSend sA hi))) = db flaky
  \/ db (serve flaky (SocketEvent (MessageSend sA hi)))
     = db (serve (set_faults [] flaky) (SocketEvent (MessageSend sA hi))).
Proof. exact (request_all_or_nothing flaky (SocketEvent (MessageSend sA hi))). Defined.

Lemma store_wf_invariant_witness : store_wf (db (serve_all a_online busy_day)).
Proof. apply (store_wf_invariant a_online busy_day). sample_wf. Defined.

Lemma messages_persist_witness : persists (db note_world) (db (run note_world chatter)).
Proof. exact (messages_persist note_world chatter). Defined.

(** The note after the chatter: same sender, receiver and date; read,
    edited, reacted to. *)
Example note_after_chatter :
  exists m, Message_findById 0 (db (run note_world chatter)) = Some m
    /\ sender m = "A" /\ receiver m = "B" /\ createdAt m = 5
    /\ isRead m = true /\ isEdited m = true /\ content m = Some "see you at 9"
    /\ reaction_pairs (reactions m) = [("B", "heart")].
Proof. vm_compute. by eexists. Qed.

Lemma socket_layer_frame_witness :
  contacts (db (run note_world chatter)) = contacts (db note_world)
  /\ length (messages (db note_world)) <= length (messages (db (run note_world chatter)))
  /\ (forall u, (name <$> users (db (run note_world chatter)) !! u)
                = (name <$> users (db note_world) !! u)
                /\ (avatar <$> users (db (run note_world chatter)) !! u)
                   = (avatar <$> users (db note_world) !! u)).
Proof. exact (socket_layer_frame note_world chatter). Defined.


Lemma history_is_the_conversation_witness :
  exists found,
    (getChatHistory "B" "A" note_world).1
      = Return (sendSuccess 200 "Chat history fetched successfully" found)
    /\ oldest_first found
    /\ found ≡ₚ populate false (db note_world)
                  <$> List.filter (between "B" "A") (messages (db note_world))
    /\ (forall pm, pm ∈ found ->
          (sender (doc pm) = "B" /\ receiver (doc pm) = "A")
          \/ (sender (doc pm) = "A" /\ receiver (doc pm) = "B"))
    /\ found = Message_find_between "A" "B" (db note_world).
Proof.
  apply (history_is_the_conversation "B" "A" note_world); [reflexivity | sample_contact].
Defined.

Lemma history_refused_without_contact_witness :
  let w := initializeSocket empty_db 0 in
  (getChatHistory "u1" "u2" w).1
    = Return (sendError 403 "You can only view messages from your contacts")
  /\ db (exec (getChatHistory "u1" "u2") w) = db w
  /\ outbox (exec (getChatHistory "u1" "u2") w) = outbox w.
Proof.
  apply (history_refused_without_contact "u1" "u2" (initializeSocket empty_db 0));
    reflexivity.
Defined.

Lemma send_raises_unread_count_witness :
  let w' := exec (on_message_send sA hi) a_online in
  (getUnreadCount "B" w').1
  = Return (Http.sendSuccess 200 "Unread count fetched"
              (Some (Message_countDocuments_unread "B" (db a_online)
                     + if bool_decide (receiverId hi = "B") then 1 else 0))).
Proof.
  apply (send_raises_unread_count sA hi a_online "B"); [reflexivity | sample_contact].
Defined.

Lemma markRead_lowers_unread_count_witness :
  let b := data_userId sB in
  let w' := exec (on_message_read sB "A") note_world in
  Message_countDocuments_unread "B" (db w')
  = if bool_decide ("B" = b) then
      length (List.filter (fun m => bool_decide (receiver m = b) && negb (isRead m)
                                    && negb (bool_decide (sender m = "A")))
                (messages (db note_world)))
    else Message_countDocuments_unread "B" (db note_world).
Proof. apply (markRead_lowers_unread_count sB "A" note_world "B"). reflexivity. Defined.

(** B's counter goes from one to zero. *)
Example unread_count_cleared :
  Message_countDocuments_unread "B" (db note_world) = 1
  /\ Message_countDocuments_unread "B" (db (exec (on_message_read sB "A") note_world)) = 0.
Proof. by vm_compute. Qed.

Lemma deleteMessage_only_by_sender_witness :
  let w' := exec (deleteMessage "A" 0) thread_world in
  outbox w' = outbox thread_world
  /\ (Message_findById 0 (db thread_world) = None ->
      (deleteMessage "A" 0 thread_world).1 = Return (Http.sendError 404 "Message not found")
      /\ db w' = db thread_world)
  /\ (forall m, Message_findById 0 (db thread_world) = Some m -> sender m ≠ "A" ->
      (deleteMessage "A" 0 thread_world).1
        = Return (Http.sendError 403 "Not authorized to delete this message")
      /\ db w' = db thread_world)
  /\ (forall m, Message_findById 0 (db thread_world) = Some m -> sender m = "A" ->
      (deleteMessage "A" 0 thread_world).1
        = Return (Http.sendSuccess 200 "Message deleted successfully" None)
      /\ Message_findById 0 (db w') = None
      /\ (forall j, j ≠ 0 -> Message_findById j (db w') = Message_findById j (db thread_world))
      /\ length (messages (db thread_world)) = S (length (messages (db w')))).
Proof.
  apply (deleteMessage_only_by_sender "A" 0 thread_world); [reflexivity | sample_wf].
Defined.

Lemma delete_leaves_replies_dangling_witness :
  let w' := exec (deleteMessage "A" 0) thread_world in
  Message_findById (_id nice_one) (db w') = Some nice_one
  /\ p_replyTo (populate true (db w') nice_one) = None
  /\ p_replyTo (populate false (db w') nice_one) = None.
Proof.
  apply (delete_leaves_replies_dangling "A" 0 thread_world photo nice_one);
    [reflexivity | sample_wf | reflexivity | reflexivity | reflexivity | reflexivity
    | discriminate].
Defined.

(** Before the delete B's reply showed A's photo. *)
Example reply_preview_before_delete :
  rp_image <$> p_replyTo (populate true (db thread_world) nice_one)
  = Some (Some "https://res.cloudinary.com/p.png").
Proof. by vm_compute. Qed.


(** Blank content: refused over HTTP, stored as the empty text over the
    socket. *)
Example blank_edit_two_ways :
  Http.status <$> (match (editMessage "A" 0 (Some "   ") note_world).1 with
                   | Return r => Some r | Throw _ => None end) = Some 400
  /\ (content <$> Message_findById 0
        (db (exec (on_message_edit sA {| edit_messageId := 0; edit_content := Some "   " |})
               note_world))) = Some (Some "").
Proof. by vm_compute. Qed.

Lemma toggleReaction_beside_socket_witness :
  let u := data_userId sA in
  let e := Some "heart" in
  outbox (exec (toggleReaction u 0 e) liked_world) = outbox liked_world
  /\ (no_emoji e = true ->
      (toggleReaction u 0 e liked_world).1 = Return (Http.sendError 400 "Emoji is required")
      /\ db (exec (toggleReaction u 0 e) liked_world) = db liked_world)
  /\ (forall s, e = Some s -> s ≠ "" ->
      db (exec (toggleReaction u 0 e) liked_world)
      = db (exec (on_message_reaction sA {| messageId := 0; emoji := s |}) liked_world)).
Proof. apply (toggleReaction_beside_socket sA 0 (Some "heart") liked_world). reflexivity. Defined.

Lemma removeContact_ends_conversation_witness :
  let w' := exec (removeContact "A" "B") note_world in
  (removeContact "A" "B" note_world).1
    = Return (Http.sendSuccess 200 "Contact removed successfully" None)
  /\ Contact_findOne "A" "B" (db w') = None
  /\ Contact_findOne "B" "A" (db w') = None
  /\ (forall x y, (x, y) ≠ ("A", "B") -> (x, y) ≠ ("B", "A") ->
        Contact_findOne x y (db w') = Contact_findOne x y (db note_world))
  /\ messages (db w') = messages (db note_world)
  /\ (forall socket data,
        (data_userId socket = "A" /\ receiverId data = "B")
        \/ (data_userId socket = "B" /\ receiverId data = "A") ->
        db (exec (on_message_send socket data) w') = db w'
        /\ outbox (exec (on_message_send socket data) w')
           = outbox w' ++ [(socket_id socket,
                            message_error "Can only send messages to contacts")])
  /\ (getChatHistory "A" "B" w').1
       = Return (sendError 403 "You can only view messages from your contacts")
  /\ (getChatHistory "B" "A" w').1
       = Return (sendError 403 "You can only view messages from your contacts").
Proof. apply (removeContact_ends_conversation "A" "B" note_world). reflexivity. Defined.

Lemma disconnect_marks_offline_witness :
  let u := data_userId sA in
  let w' := exec (on_disconnect sA) note_world in
  users (db w') !! u
    = (fun x => {| name := name x; avatar := avatar x; isOnline := false;
                   lastSeen := Some (now note_world) |}) <$> users (db note_world) !! u
  /\ (forall v, v ≠ u -> users (db w') !! v = users (db note_world) !! v)
  /\ messages (db w') = messages (db note_world)
  /\ contacts (db w') = contacts (db note_world)
  /\ outbox w' =
       outbox note_world
         ++ ((fun t => (t, user_status u false)) <$> broadcast_targets sA (sockets note_world)).
Proof. apply (disconnect_marks_offline sA note_world); [reflexivity | discriminate]. Defined.

Lemma failed_disconnect_leaves_stale_handle_witness :
  let w' := step store_down (Disconnect sA) in
  let w'' := step w' (MessageSend sB hello_a) in
  db w' = db store_down
  /\ outbox w' = outbox store_down
  /\ userSockets w' !! data_userId sA = Some (socket_id sA)
  /\ (forall x, x ∈ sockets w' -> socket_id x ≠ socket_id sA)
  /\ exists pm, outbox w'' =
       outbox store_down ++ [(socket_id sB, message_sent pm);
                             (socket_id sA, message_receive pm)].
Proof.
  apply (failed_disconnect_leaves_stale_handle sA store_down "connection lost" sB hello_a);
    [reflexivity | discriminate | reflexivity | reflexivity | sample_contact].
Defined.

Lemma presence_round_trip_witness :
  let u := data_userId sA in
  let w' := run b_online [Connection sA; UserOnline sA; Disconnect sA] in
  userSockets w' = delete u (userSockets b_online)
  /\ users (db w') !! u
     = (fun x => {| name := name x; avatar := avatar x; isOnline := false;
                    lastSeen := Some (now b_online) |}) <$> users (db b_online) !! u
  /\ (forall x, x ∈ sockets w' <-> x ∈ sockets b_online /\ socket_id x ≠ socket_id sA)
  /\ outbox w' =
       outbox b_online
       ++ ((fun t => (t, user_status u true)) <$> broadcast_targets sA (sockets b_online))
       ++ ((fun t => (t, user_status u false)) <$> broadcast_targets sA (sockets b_online)).
Proof. apply (presence_round_trip sA b_online); [reflexivity | discriminate]. Defined.

Lemma logout_beside_disconnect_witness :
  let u := data_userId sA in
  (logout u note_world).1 = Return (Http.sendSuccess 200 "Logout successful" None)
  /\ db (exec (logout u) note_world) = db (exec (on_disconnect sA) note_world)
  /\ userSockets (exec (logout u) note_world) = userSockets note_world
  /\ outbox (exec (logout u) note_world) = outbox note_world.
Proof. apply (logout_beside_disconnect sA note_world); [reflexivity | discriminate]. Defined.

(** ** The shape of a stored message *)

Lemma List_filter_sublist {A} (f : A -> bool) (l : list A) : sublist (List.filter f l) l.
Proof.
  induction l as [|x l IH]; [done|]. simpl. destruct (f x).
  - by apply sublist_skip.
  - by apply sublist_cons.
Qed.

Lemma toggle_NoDup (u : UserId) (e : string) (t : Date) (l : list Reaction) :
  NoDup (reaction_pairs l) -> NoDup (reaction_pairs (toggle u e t l)).
Proof.
  intros Hnd. destruct (decide ((u, e) ∈ reaction_pairs l)) as [Hin|Hout].
  - rewrite toggle_present by done. eapply sublist_NoDup; [exact Hnd|].
    apply fmap_sublist, List_filter_sublist.
  - rewrite toggle_absent by done. unfold reaction_pairs. rewrite fmap_app. simpl.
    apply NoDup_app. split; [done|]. split; [|apply NoDup_singleton].
    intros p Hp Hq. apply list_elem_of_singleton in Hq. by subst.
Qed.

Lemma Forall_replace_doc (P : IMessage -> Prop) (m : IMessage) (l : list IMessage) :
  P m -> Forall P l -> Forall P (replace_doc m l).
Proof.
  intros Hm Hl. induction Hl as [|x l Hx Hl IH]; [done|]. simpl.
  case_bool_decide; by constructor.
Qed.

Lemma request_write_shape (t : Date) (d d' : Db) :
  request_write t d d' -> Forall message_ok (messages d) -> Forall message_ok (messages d').
Proof.
  intros Hw Hok.
  assert (forall i m, Message_findById i d = Some m -> message_ok m) as Hfound.
  { intros i m Hm. rewrite Forall_forall in Hok. apply Hok.
    unfold Message_findById in Hm. apply find_some in Hm as [Hm _].
    by apply list_elem_of_In. }
  destruct Hw as [d' Hs|m Hm|a b]; [destruct Hs as [|data|m c Hm Ht|m u e Hm|s r|u o seen]|..];
    simpl; try done.
  - apply Forall_app. split; [done|]. constructor; [|constructor].
    split; simpl; [constructor | done].
  - apply Forall_replace_doc; [|done]. destruct (Hfound _ _ Hm) as [Hnd _].
    split; simpl; [done|]. intros _. split; [done | by eexists].
  - apply Forall_replace_doc; [|done]. destruct (Hfound _ _ Hm) as [Hnd He].
    split; simpl; [by apply toggle_NoDup | done].
  - apply Forall_fmap. eapply Forall_impl; [exact Hok|]. intros m Hm. simpl.
    by destruct (unread_from s r m).
  - rewrite Forall_forall in *. intros x Hx. apply Hok.
    eapply elem_of_sublist; [exact Hx|]. apply remove_doc_sublist.
Qed.

(** Along any sequence of socket events and HTTP requests, whatever fails,
    no message ever holds two reactions with the same reactor and emoji, and
    every edited message is a text message carrying its edit time. *)
Theorem message_shape_invariant (w : World) (l : list Request) :
  Forall message_ok (messages (db w)) ->
  Forall message_ok (messages (db (serve_all w l))).
Proof.
  revert w. induction l as [|r l IH]; intros w Hok; [done|].
  simpl. apply IH. eapply request_write_shape; [apply serve_write | done].
Qed.

Lemma message_shape_invariant_witness :
  Forall message_ok (messages (db (serve_all liked_world reactions_day))).
Proof.
  apply (message_shape_invariant liked_world reactions_day).
  constructor; [|constructor]. split; [apply NoDup_singleton | discriminate].
Defined.
